(** * statsdaemon: the flush engine of the graphite and open-falcon backends

    A shallow embedding of [graphite.go] and [openfalcon.go]: the shared
    metric store, the four [process*] procedures of each backend, the two
    [submit] methods, and [parseMetric].

    Conventions.
    - [float64] is the kernel's binary64 type [float] (bit-exact IEEE 754
      arithmetic, a single NaN); every operation rounds on its own, as the
      amd64 compiler emits it.
    - [int64] / [int] are [Z] with the wrap-around written out ([wrap64]).
    - Go strings are byte strings: [string].
    - Go maps are [gmap string _].  A [range] loop over a map visits every
      entry once in an order the runtime chooses: the order is a parameter
      ([range_order]) of every procedure that contains such a loop.
    - A runtime panic (index or slice out of range, nil dereference) ends
      the process: procedures that can panic return an [outcome].
    - [log.Printf] calls write diagnostics only and are left out. *)

From Stdlib Require Import ZArith Floats Lia.
From stdpp Require Import base option list gmap strings.

Local Open Scope Z_scope.

(** ** Machine integers *)

Definition wrap64 (z : Z) : Z := (z + 2 ^ 63) mod 2 ^ 64 - 2 ^ 63.

Definition in_int64 (z : Z) : bool := (- 2 ^ 63 <=? z) && (z <? 2 ^ 63).

(** ** Outcomes of code that may panic *)

Inductive abort : Type :=
| IndexOutOfRange      (* s[i] with i outside [0, len s) *)
| SliceOutOfRange      (* s[:hi] or s[lo:] with a bound outside [0, len s] *)
| NilDereference       (* method call through a nil pointer *)
| ImplementationDefined. (* a float-to-int conversion the language leaves open *)

Inductive outcome (A : Type) : Type :=
| Ok (a : A)
| Panic (why : abort).
Arguments Ok {A} a.
Arguments Panic {A} why.

#[global] Instance outcome_ret : MRet outcome := λ A a, Ok a.
#[global] Instance outcome_bind : MBind outcome := λ A B k x,
  match x with
  | Ok a => k a
  | Panic w => Panic w
  end.

(** A loop whose body may panic: the first panic ends the loop. *)
Fixpoint foldM {A S} (body : S → A → outcome S) (s : S) (l : list A) : outcome S :=
  match l with
  | [] => Ok s
  | a :: l' => s' ← body s a; foldM body s' l'
  end.

(** ** Strings and slices *)

Definition len (s : string) : Z := Z.of_nat (String.length s).

(** [s[:hi]] and [s[lo:]] when the bound is in range. *)
Definition str_take (hi : Z) (s : string) : string :=
  String.substring 0 (Z.to_nat hi) s.
Definition str_drop (lo : Z) (s : string) : string :=
  String.substring (Z.to_nat lo) (String.length s - Z.to_nat lo) s.

Definition slice_to (s : string) (hi : Z) : outcome string :=
  if (0 <=? hi) && (hi <=? len s) then Ok (str_take hi s) else Panic SliceOutOfRange.
Definition slice_from (s : string) (lo : Z) : outcome string :=
  if (0 <=? lo) && (lo <=? len s) then Ok (str_drop lo s) else Panic SliceOutOfRange.

(** [l[i]] on a slice. *)
Definition index {A} (l : list A) (i : Z) : outcome A :=
  if (0 <=? i) && (i <? Z.of_nat (length l)) then
    match l !! Z.to_nat i with
    | Some a => Ok a
    | None => Panic IndexOutOfRange
    end
  else Panic IndexOutOfRange.

(** [strings.LastIndex(s, sep)]: the byte offset of the last occurrence of
    [sep] in [s], or -1. *)
Fixpoint LastIndex (s sep : string) : Z :=
  match s with
  | EmptyString => if String.prefix sep EmptyString then 0 else -1
  | String c s' =>
      let i := LastIndex s' sep in
      if 0 <=? i then i + 1
      else if String.prefix sep s then 0 else -1
  end.

(** ** float64 *)

Local Open Scope float_scope.

(** [float64(n)] for a non-negative [int] (a length). *)
Definition float64_of_int (n : Z) : float := PrimFloat.of_uint63 (Uint63.of_Z n).

(** [int(math.Floor(x))].  The conversion of NaN, of an infinity and of a
    value outside [int64] is implementation-dependent in Go. *)
Definition int_floor (x : float) : outcome Z :=
  match Prim2SF x with
  | S754_zero _ => Ok 0%Z
  | S754_finite sg m e =>
      let v := Z.shiftl (if sg then Z.neg m else Z.pos m) e in
      if in_int64 v then Ok v else Panic ImplementationDefined
  | S754_infinity _ | S754_nan => Panic ImplementationDefined
  end.

(** [sort.Sort(timer)] on a [Float64Slice] (ordered by [<]): ascending order.
    The library's result on a slice without NaN is determined up to the
    order of elements that compare equal; insertion sort is one such result. *)
Fixpoint sort_insert (x : float) (l : list float) : list float :=
  match l with
  | [] => [x]
  | y :: l' => if y <? x then y :: sort_insert x l' else x :: l
  end.
Definition sort_floats (l : list float) : list float := foldr sort_insert [] l.

(** Two float64 values denote the same number: identical, or equal under
    Go's [==] (which identifies the two zeros). *)
Definition same_number (x y : float) : Prop := x = y ∨ (x =? y) = true.

Local Close Scope float_scope.

(** ** The shared metric store and the configuration

    The five maps and the flags are package-level variables declared in
    [statsdaemon.go]; the procedures below read and mutate them, so they are
    threaded through as a [store] and read from a [config]. *)

Record Percentile : Type := {
  pct_float : float;   (* field [float] *)
  pct_str : string;    (* field [str] *)
}.

Record config : Type := {
  debug : bool;
  deleteGauges : bool;
  persistCountKeys : Z;
  postfix : string;
  percentThreshold : list Percentile;
  flushInterval : Z;
  graphiteAddress : string;
}.

Record store : Type := {
  counters : gmap string float;
  gauges : gmap string float;
  timers : gmap string (list float);
  sets : gmap string (list string);
  countInactivity : gmap string Z;
}.

Definition set_counters (f : gmap string float → gmap string float) (s : store) : store :=
  {| counters := f (counters s); gauges := gauges s; timers := timers s;
     sets := sets s; countInactivity := countInactivity s |}.
Definition set_gauges (f : gmap string float → gmap string float) (s : store) : store :=
  {| counters := counters s; gauges := f (gauges s); timers := timers s;
     sets := sets s; countInactivity := countInactivity s |}.
Definition set_timers (f : gmap string (list float) → gmap string (list float)) (s : store) : store :=
  {| counters := counters s; gauges := gauges s; timers := f (timers s);
     sets := sets s; countInactivity := countInactivity s |}.
Definition set_sets (f : gmap string (list string) → gmap string (list string)) (s : store) : store :=
  {| counters := counters s; gauges := gauges s; timers := timers s;
     sets := f (sets s); countInactivity := countInactivity s |}.
Definition set_countInactivity (f : gmap string Z → gmap string Z) (s : store) : store :=
  {| counters := counters s; gauges := gauges s; timers := timers s;
     sets := sets s; countInactivity := f (countInactivity s) |}.

Definition empty_store : store :=
  {| counters := ∅; gauges := ∅; timers := ∅; sets := ∅; countInactivity := ∅ |}.

(** [m[k]] on a map of integers: the zero value when [k] is absent. *)
Definition get0 (m : gmap string Z) (k : string) : Z := default 0 (m !! k).

(** The order in which one [range] statement visits a map: every entry
    once.  The loops below only update or delete the entry they are at, so
    the entries visited are those present when the loop starts. *)
Record range_order : Type := {
  visit : ∀ V : Type, gmap string V → list (string * V);
  visit_perm : ∀ (V : Type) (m : gmap string V), visit V m ≡ₚ map_to_list m;
}.
Arguments visit _ {V} _.

Definition canonical_order : range_order :=
  {| visit := λ V m, map_to_list m; visit_perm := λ V m, reflexivity _ |}.

(** The orders of the five [range] loops over the store in one flush. *)
Record orders : Type := {
  ord_counters : range_order;
  ord_inactive : range_order;
  ord_gauges : range_order;
  ord_timers : range_order;
  ord_sets : range_order;
}.

Definition canonical_orders : orders :=
  {| ord_counters := canonical_order; ord_inactive := canonical_order;
     ord_gauges := canonical_order; ord_timers := canonical_order;
     ord_sets := canonical_order |}.

(** ** Emitted values

    What a procedure hands to its backend for one record: a float64, the
    literal zero of the zero-fill, or an integer (a length). *)
Inductive value : Type :=
| VFloat (f : float)
| VZero
| VInt (n : Z).

(** ** Blocks the two backends share verbatim *)

(** [len(uniqueSet)] after the deduplication loop (graphite.go 117-120,
    openfalcon.go 132-135). *)
Definition uniqueSet (set : list string) : gmap string bool :=
  foldl (λ u str, <[str := true]> u) ∅ set.
Definition uniqueCount (set : list string) : Z := Z.of_nat (size (uniqueSet set)).

(** [indexOfPerc] (graphite.go 148-159, openfalcon.go 161-172). *)
Definition indexOfPerc (pct : Percentile) (count : Z) : outcome Z :=
  let abs := if (0 <=? pct_float pct)%float then pct_float pct
             else (100 + pct_float pct)%float in
  i ← int_floor (abs / 100 * float64_of_int count + 0.5)%float;
  Ok (if (0 <=? pct_float pct)%float then wrap64 (i - 1) else i).

(** One round of the percentile loop up to the assignment of
    [maxAtThreshold] (graphite.go 147-161, openfalcon.go 160-174); [timer]
    is sorted. *)
Definition threshold (timer : list float) (maxAtThreshold : float)
    (pct : Percentile) : outcome float :=
  if 1 <? Z.of_nat (length timer) then
    i ← indexOfPerc pct (Z.of_nat (length timer));
    index timer i
  else Ok maxAtThreshold.

(** The metric name of a percentile record (graphite.go 163-173,
    openfalcon.go 176-184). *)
Definition pct_name (cfg : config) (bucketWithoutPostfix : string)
    (pct : Percentile) : outcome string :=
  if (0 <=? pct_float pct)%float then
    Ok (bucketWithoutPostfix +:+ ".upper_" +:+ pct_str pct +:+ postfix cfg)
  else
    pctstr ← slice_from (pct_str pct) 1;
    Ok (bucketWithoutPostfix +:+ ".lower_" +:+ pctstr +:+ postfix cfg).

(** [sum] and [mean] (graphite.go 140-144, openfalcon.go 153-157). *)
Definition sum_of (timer : list float) : float := foldl PrimFloat.add 0%float timer.
Definition mean_of (timer : list float) : float :=
  (sum_of timer / float64_of_int (Z.of_nat (length timer)))%float.

(** ** graphite.go *)

Module Graphite.

(** One [fmt.Fprintf(buffer, "%s %s %d\n", name, value, now)]: the line
    is kept as its three arguments; [value] is printed by
    [strconv.FormatFloat(_, 'f', -1, 64)], as the literal [0], or by [%d]. *)
Record line : Type := Line {
  l_name : string;
  l_value : value;
  l_now : Z;
}.

Definition Fprintf (buffer : list line) (name : string) (v : value) (now : Z)
    : list line :=
  buffer ++ [Line name v now].

(** [buffer.Bytes()], given the decimal printers. *)
Definition render (FormatFloat : float → string) (FormatInt : Z → string)
    (l : line) : string :=
  l_name l +:+ " " +:+
  match l_value l with
  | VFloat f => FormatFloat f
  | VZero => "0"
  | VInt n => FormatInt n
  end +:+ " " +:+ FormatInt (l_now l) +:+ String (Ascii.ascii_of_nat 10) "".
Definition Bytes (FormatFloat : float → string) (FormatInt : Z → string)
    (buffer : list line) : string :=
  foldr (λ l acc, render FormatFloat FormatInt l +:+ acc) "" buffer.

(** The loop state: the buffer, [num] and the store.  [num] counts map
    entries held in memory, far below 2^63: its wrap-around is not
    written out. *)
Definition acc : Type := list line * Z * store.

(** The body of the first loop of [processCounters] (lines 81-86). *)
Definition counters_body (now : Z) (a : acc) (e : string * float) : acc :=
  let '(buffer, num, s) := a in
  let '(bucket, value) := e in
  let buffer := Fprintf buffer bucket (VFloat value) now in
  let s := set_counters (delete bucket) s in
  let s := set_countInactivity <[bucket := 0]> s in
  (buffer, num + 1, s).

(** The body of its second loop (lines 87-96). *)
Definition inactive_body (cfg : config) (now : Z) (a : acc) (e : string * Z) : acc :=
  let '(buffer, num, s) := a in
  let '(bucket, purgeCount) := e in
  let '(buffer, num) :=
    if 0 <? purgeCount then (Fprintf buffer bucket VZero now, num + 1)
    else (buffer, num) in
  let s := set_countInactivity
             (λ m, <[bucket := wrap64 (get0 m bucket + 1)]> m) s in
  let s := if persistCountKeys cfg <? get0 (countInactivity s) bucket
           then set_countInactivity (delete bucket) s else s in
  (buffer, num, s).

(** Lines 78-98. *)
Definition processCounters (cfg : config) (oc oi : range_order)
    (buffer : list line) (now : Z) (s : store) : acc :=
  let a := foldl (counters_body now) (buffer, 0, s) (visit oc (counters s)) in
  foldl (inactive_body cfg now) a (visit oi (countInactivity a.2)).

(** The body of the loop of [processGauges] (lines 103-109). *)
Definition gauges_body (cfg : config) (now : Z) (a : acc) (e : string * float) : acc :=
  let '(buffer, num, s) := a in
  let '(bucket, currentValue) := e in
  let buffer := Fprintf buffer bucket (VFloat currentValue) now in
  let num := num + 1 in
  let s := if deleteGauges cfg then set_gauges (delete bucket) s else s in
  (buffer, num, s).

(** Lines 100-111. *)
Definition processGauges (cfg : config) (o : range_order)
    (buffer : list line) (now : Z) (s : store) : acc :=
  foldl (gauges_body cfg now) (buffer, 0, s) (visit o (gauges s)).

(** The body of the loop of [processSets] (lines 115-124). *)
Definition sets_body (now : Z) (a : acc) (e : string * list string) : acc :=
  let '(buffer, num, s) := a in
  let '(bucket, set) := e in
  let buffer := Fprintf buffer bucket (VInt (uniqueCount set)) now in
  (buffer, num, set_sets (delete bucket) s).

(** Lines 113-126: [num] starts at [len(sets)] and is not incremented. *)
Definition processSets (o : range_order)
    (buffer : list line) (now : Z) (s : store) : acc :=
  let num := Z.of_nat (size (sets s)) in
  foldl (sets_body now) (buffer, num, s) (visit o (sets s)).

(** The percentile loop (lines 146-174); its state is the buffer and
    [maxAtThreshold], which is declared outside the loop. *)
Definition pct_body (cfg : config) (now : Z) (bucketWithoutPostfix : string)
    (timer : list float) (st : list line * float) (pct : Percentile)
    : outcome (list line * float) :=
  let '(buffer, maxAtThreshold) := st in
  maxAtThreshold ← threshold timer maxAtThreshold pct;
  name ← pct_name cfg bucketWithoutPostfix pct;
  Ok (Fprintf buffer name (VFloat maxAtThreshold) now, maxAtThreshold).

(** The body of the loop of [processTimers] (lines 130-186); [num] counts
    buckets, not lines. *)
Definition timers_body (cfg : config) (now : Z) (pctls : list Percentile)
    (a : acc) (e : string * list float) : outcome acc :=
  let '(buffer, num, s) := a in
  let '(bucket, timer) := e in
  bucketWithoutPostfix ← slice_to bucket (len bucket - len (postfix cfg));
  let num := num + 1 in
  let timer := sort_floats timer in
  min ← index timer 0;
  max ← index timer (Z.of_nat (length timer) - 1);
  let maxAtThreshold := max in
  let count := Z.of_nat (length timer) in
  let mean := mean_of timer in
  '(buffer, _) ← foldM (pct_body cfg now bucketWithoutPostfix timer)
                       (buffer, maxAtThreshold) pctls;
  let buffer := Fprintf buffer (bucketWithoutPostfix +:+ ".mean" +:+ postfix cfg)
                  (VFloat mean) now in
  let buffer := Fprintf buffer (bucketWithoutPostfix +:+ ".upper" +:+ postfix cfg)
                  (VFloat max) now in
  let buffer := Fprintf buffer (bucketWithoutPostfix +:+ ".lower" +:+ postfix cfg)
                  (VFloat min) now in
  let buffer := Fprintf buffer (bucketWithoutPostfix +:+ ".count" +:+ postfix cfg)
                  (VInt count) now in
  Ok (buffer, num, set_timers (delete bucket) s).

(** Lines 128-188. *)
Definition processTimers (cfg : config) (o : range_order)
    (buffer : list line) (now : Z) (pctls : list Percentile) (s : store)
    : outcome acc :=
  foldM (timers_body cfg now pctls) (buffer, 0, s) (visit o (timers s)).

(** The connection: what [net.Dial], [SetDeadline] and [Write] answer
    ([None] is a nil error). *)
Record network : Type := {
  dial_err : option string;
  deadline_err : option string;
  write_err : option string;
}.

Inductive event : Type :=
| Dial (addr : string)
| SetDeadline (deadline : Z)
| Write (buffer : list line)
| Close.

Record graphiteBackend : Type := { addr : string }.

(** The result of [submit]: the error ([None] is nil), the store it
    leaves, and the network operations it performed, in order. *)
Definition result : Type := option string * store * list event.

(** Lines 25-76.  The deferred [client.Close()] runs on every return after
    the dial succeeded. *)
Definition submit (cfg : config) (net : network) (os : orders)
    (bd : graphiteBackend) (now : Z) (deadline : Z) (s : store)
    : outcome result :=
  let buffer : list line := [] in
  match dial_err net with
  | Some err =>
      s ← (if debug cfg then
             let '(buffer, _, s) :=
               processCounters cfg (ord_counters os) (ord_inactive os) buffer now s in
             let '(buffer, _, s) := processGauges cfg (ord_gauges os) buffer now s in
             '(buffer, _, s) ← processTimers cfg (ord_timers os) buffer now
                                 (percentThreshold cfg) s;
             let '(_, _, s) := processSets (ord_sets os) buffer now s in
             Ok s
           else Ok s);
      let errmsg := "dialing " +:+ graphiteAddress cfg +:+ " failed - " +:+ err in
      Ok (Some errmsg, s, [Dial (addr bd)])
  | None =>
      match deadline_err net with
      | Some err => Ok (Some err, s, [Dial (addr bd); SetDeadline deadline; Close])
      | None =>
          let '(buffer, n1, s) :=
            processCounters cfg (ord_counters os) (ord_inactive os) buffer now s in
          let '(buffer, n2, s) := processGauges cfg (ord_gauges os) buffer now s in
          '(buffer, n3, s) ← processTimers cfg (ord_timers os) buffer now
                               (percentThreshold cfg) s;
          let '(buffer, n4, s) := processSets (ord_sets os) buffer now s in
          let num := n1 + n2 + n3 + n4 in
          if num =? 0 then
            Ok (None, s, [Dial (addr bd); SetDeadline deadline; Close])
          else
            match write_err net with
            | Some err =>
                let errmsg := "failed to write stats - " +:+ err in
                Ok (Some errmsg, s,
                    [Dial (addr bd); SetDeadline deadline; Write buffer; Close])
            | None =>
                Ok (None, s,
                    [Dial (addr bd); SetDeadline deadline; Write buffer; Close])
            end
      end
  end.

End Graphite.

(** ** openfalcon.go *)

Module OpenFalcon.

Definition DEFAULT_ENDPOINT : string := "statsd".

Record openFalconMsg : Type := {
  Metric : string;
  Endpoint : string;
  Tags : string;
  Value : float;
  Timestamp : Z;
  CounterType : string;
  Step : Z;
}.

Record openFalconBackend : Type := {
  addr : string;
  postUrl : string;
  packets : list openFalconMsg;
}.

Definition set_packets (p : list openFalconMsg) (bd : openFalconBackend)
    : openFalconBackend :=
  {| addr := addr bd; postUrl := postUrl bd; packets := p |}.

Definition NewOpenFalconBackend (addr : string) : openFalconBackend :=
  {| addr := addr; postUrl := "http://" +:+ addr +:+ "/v1/push"; packets := [] |}.

(** The slice bounds [index] and [index+1] are within [0, len metric]
    whenever [index >= 0] (lemma [parseMetric_in_range]), so the two
    slices are written with the unchecked [str_take] and [str_drop]. *)
Definition parseMetric (metric : string) : string * string :=
  let name := metric in
  let tags := "" in
  let index := LastIndex metric "/" in
  if 0 <=? index then (str_take index metric, str_drop (index + 1) metric)
  else (name, tags).

(** The float64 a call site passes to [appendPacket]: the value itself,
    the constant [0], or [float64(n)]. *)
Definition float_of_value (v : value) : float :=
  match v with
  | VFloat f => f
  | VZero => 0%float
  | VInt n => float64_of_int n
  end.

(** Lines 43-55. *)
Definition appendPacket (cfg : config) (bd : openFalconBackend)
    (metric : string) (value : float) (now : Z) : openFalconBackend :=
  let '(realMetric, tags) := parseMetric metric in
  let msg := {| Metric := realMetric; Endpoint := DEFAULT_ENDPOINT; Tags := tags;
                Value := value; Timestamp := now; CounterType := "GAUGE";
                Step := flushInterval cfg |} in
  set_packets (packets bd ++ [msg]) bd.

(** The loop state: the backend (its [packets]) and the store. *)
Definition acc : Type := openFalconBackend * store.

(** The body of the first loop of [processCounters] (lines 102-107). *)
Definition counters_body (cfg : config) (now : Z) (a : acc) (e : string * float) : acc :=
  let '(bd, s) := a in
  let '(bucket, value) := e in
  let bd := appendPacket cfg bd bucket value now in
  let s := set_counters (delete bucket) s in
  let s := set_countInactivity <[bucket := 0]> s in
  (bd, s).

(** The body of its second loop (lines 108-116). *)
Definition inactive_body (cfg : config) (now : Z) (a : acc) (e : string * Z) : acc :=
  let '(bd, s) := a in
  let '(bucket, purgeCount) := e in
  let bd := if 0 <? purgeCount then appendPacket cfg bd bucket 0%float now else bd in
  let s := set_countInactivity
             (λ m, <[bucket := wrap64 (get0 m bucket + 1)]> m) s in
  let s := if persistCountKeys cfg <? get0 (countInactivity s) bucket
           then set_countInactivity (delete bucket) s else s in
  (bd, s).

(** Lines 100-117. *)
Definition processCounters (cfg : config) (oc oi : range_order)
    (bd : openFalconBackend) (now : Z) (s : store) : acc :=
  let a := foldl (counters_body cfg now) (bd, s) (visit oc (counters s)) in
  foldl (inactive_body cfg now) a (visit oi (countInactivity a.2)).

(** The body of the loop of [processGauges] (lines 120-126). *)
Definition gauges_body (cfg : config) (now : Z) (a : acc) (e : string * float) : acc :=
  let '(bd, s) := a in
  let '(bucket, currentValue) := e in
  let bd := appendPacket cfg bd bucket currentValue now in
  let s := if deleteGauges cfg then set_gauges (delete bucket) s else s in
  (bd, s).

(** Lines 119-127. *)
Definition processGauges (cfg : config) (o : range_order)
    (bd : openFalconBackend) (now : Z) (s : store) : acc :=
  foldl (gauges_body cfg now) (bd, s) (visit o (gauges s)).

(** The body of the loop of [processSets] (lines 130-140). *)
Definition sets_body (cfg : config) (now : Z) (a : acc) (e : string * list string) : acc :=
  let '(bd, s) := a in
  let '(bucket, set) := e in
  let bd := appendPacket cfg bd bucket (float64_of_int (uniqueCount set)) now in
  (bd, set_sets (delete bucket) s).

(** Lines 129-141. *)
Definition processSets (cfg : config) (o : range_order)
    (bd : openFalconBackend) (now : Z) (s : store) : acc :=
  foldl (sets_body cfg now) (bd, s) (visit o (sets s)).

(** The percentile loop (lines 159-186). *)
Definition pct_body (cfg : config) (now : Z) (bucketWithoutPostfix : string)
    (timer : list float) (st : openFalconBackend * float) (pct : Percentile)
    : outcome (openFalconBackend * float) :=
  let '(bd, maxAtThreshold) := st in
  maxAtThreshold ← threshold timer maxAtThreshold pct;
  metric ← pct_name cfg bucketWithoutPostfix pct;
  Ok (appendPacket cfg bd metric maxAtThreshold now, maxAtThreshold).

(** The body of the loop of [processTimers] (lines 144-194). *)
Definition timers_body (cfg : config) (now : Z) (pctls : list Percentile)
    (a : acc) (e : string * list float) : outcome acc :=
  let '(bd, s) := a in
  let '(bucket, timer) := e in
  bucketWithoutPostfix ← slice_to bucket (len bucket - len (postfix cfg));
  let timer := sort_floats timer in
  min ← index timer 0;
  max ← index timer (Z.of_nat (length timer) - 1);
  let maxAtThreshold := max in
  let count := Z.of_nat (length timer) in
  let mean := mean_of timer in
  '(bd, _) ← foldM (pct_body cfg now bucketWithoutPostfix timer)
                   (bd, maxAtThreshold) pctls;
  let bd := appendPacket cfg bd (bucketWithoutPostfix +:+ ".mean" +:+ postfix cfg)
              mean now in
  let bd := appendPacket cfg bd (bucketWithoutPostfix +:+ ".upper" +:+ postfix cfg)
              max now in
  let bd := appendPacket cfg bd (bucketWithoutPostfix +:+ ".lower" +:+ postfix cfg)
              min now in
  let bd := appendPacket cfg bd (bucketWithoutPostfix +:+ ".count" +:+ postfix cfg)
              (float64_of_int count) now in
  Ok (bd, set_timers (delete bucket) s).

(** Lines 143-195. *)
Definition processTimers (cfg : config) (o : range_order)
    (bd : openFalconBackend) (now : Z) (pctls : list Percentile) (s : store)
    : outcome acc :=
  foldM (timers_body cfg now pctls) (bd, s) (visit o (timers s)).

(** What [json.Marshal], [http.NewRequest] and [client.Do] answer. *)
Record network : Type := {
  marshal : list openFalconMsg → string + string;  (* bytes, or an error *)
  new_request_ok : bool;                           (* false: the request is nil *)
  do_err : option string;
}.

Inductive event : Type :=
| Post (url : string) (body : string).

(** The result of [submit]: the error ([None] is nil), the backend and
    the store it leaves, and the requests it issued.  The deferred
    function resets [packets] on every return. *)
Definition result : Type := option string * openFalconBackend * store * list event.

(** Lines 57-98.  [http.NewRequest]'s error is overwritten unread: a nil
    request panics at [req.Header.Set]. *)
Definition submit (cfg : config) (net : network) (os : orders)
    (bd : openFalconBackend) (now : Z) (deadline : Z) (s : store)
    : outcome result :=
  let '(bd, s) := processCounters cfg (ord_counters os) (ord_inactive os) bd now s in
  let '(bd, s) := processGauges cfg (ord_gauges os) bd now s in
  '(bd, s) ← processTimers cfg (ord_timers os) bd now (percentThreshold cfg) s;
  let '(bd, s) := processSets cfg (ord_sets os) bd now s in
  let num := Z.of_nat (length (packets bd)) in
  if num =? 0 then Ok (None, set_packets [] bd, s, [])
  else
    match marshal net (packets bd) with
    | inr err =>
        let errmsg := "failed to marshal json - " +:+ err in
        Ok (Some errmsg, set_packets [] bd, s, [])
    | inl buffer =>
        if new_request_ok net then
          match do_err net with
          | Some err =>
              let errmsg := "failed to write stats - " +:+ err in
              Ok (Some errmsg, set_packets [] bd, s, [Post (postUrl bd) buffer])
          | None => Ok (None, set_packets [] bd, s, [Post (postUrl bd) buffer])
          end
        else Panic NilDereference
    end.

End OpenFalcon.

(** * Verification

    ** The records of a flush, independent of the backend

    Both backends run the same loops over the store and differ only in
    what they do with a record: graphite prints a line, open-falcon appends
    a packet.  The definitions of this section describe the records and the
    store transitions; the lemmas [graphite_*_spec] and [falcon_*_spec]
    below prove that each backend's procedure, as transcribed above,
    computes exactly these. *)

Definition record : Type := string * value.

Definition to_line (now : Z) (r : record) : Graphite.line :=
  Graphite.Line r.1 r.2 now.

Definition to_packet (cfg : config) (now : Z) (r : record) : OpenFalcon.openFalconMsg :=
  {| OpenFalcon.Metric := (OpenFalcon.parseMetric r.1).1;
     OpenFalcon.Endpoint := OpenFalcon.DEFAULT_ENDPOINT;
     OpenFalcon.Tags := (OpenFalcon.parseMetric r.1).2;
     OpenFalcon.Value := OpenFalcon.float_of_value r.2;
     OpenFalcon.Timestamp := now;
     OpenFalcon.CounterType := "GAUGE";
     OpenFalcon.Step := flushInterval cfg |}.

(** The records with name [k] among [rs]. *)
Definition named (k : string) (rs : list record) : list record :=
  filter (λ r, r.1 = k) rs.

(** *** Counters *)

Definition counter_record (e : string * float) : record := (e.1, VFloat e.2).
Definition zero_record (e : string * Z) : option record :=
  if 0 <? e.2 then Some (e.1, VZero) else None.

Definition counters_step (s : store) (e : string * float) : store :=
  set_countInactivity <[e.1 := 0]> (set_counters (delete e.1) s).

Definition inactive_step (cfg : config) (s : store) (e : string * Z) : store :=
  let s := set_countInactivity
             (λ m, <[e.1 := wrap64 (get0 m e.1 + 1)]> m) s in
  if persistCountKeys cfg <? get0 (countInactivity s) e.1
  then set_countInactivity (delete e.1) s else s.

(** The inactivity map between the two loops of [processCounters]: every
    flushed key reset to 0. *)
Definition reset_inactivity (s : store) : gmap string Z :=
  ((λ _ : float, 0) <$> counters s) ∪ countInactivity s.

(** What the second loop does to one inactivity count. *)
Definition age (cfg : config) (c : Z) : option Z :=
  let c' := wrap64 (c + 1) in
  if persistCountKeys cfg <? c' then None else Some c'.

Definition counters_flushed (cfg : config) (s : store) : store :=
  {| counters := ∅; gauges := gauges s; timers := timers s; sets := sets s;
     countInactivity := omap (age cfg) (reset_inactivity s) |}.

Definition counters_records (oc oi : range_order) (s : store) : list record :=
  (counter_record <$> visit oc (counters s))
  ++ omap zero_record (visit oi (reset_inactivity s)).

(** *** Gauges *)

Definition gauges_flushed (cfg : config) (s : store) : store :=
  if deleteGauges cfg then set_gauges (λ _, ∅) s else s.

Definition gauges_records (o : range_order) (s : store) : list record :=
  counter_record <$> visit o (gauges s).

(** *** Sets *)

Definition set_record (e : string * list string) : record :=
  (e.1, VInt (uniqueCount e.2)).

Definition sets_records (o : range_order) (s : store) : list record :=
  set_record <$> visit o (sets s).

(** *** Timers *)

Definition pct_record (cfg : config) (stem : string) (timer : list float)
    (max : float) (pct : Percentile) : outcome record :=
  t ← threshold timer max pct;
  name ← pct_name cfg stem pct;
  Ok (name, VFloat t).

Definition timer_records (cfg : config) (pctls : list Percentile)
    (e : string * list float) : outcome (list record) :=
  stem ← slice_to e.1 (len e.1 - len (postfix cfg));
  let timer := sort_floats e.2 in
  min ← index timer 0;
  max ← index timer (Z.of_nat (length timer) - 1);
  pcts ← mapM (pct_record cfg stem timer max) pctls;
  Ok (pcts ++ [ (stem +:+ ".mean" +:+ postfix cfg, VFloat (mean_of timer));
                (stem +:+ ".upper" +:+ postfix cfg, VFloat max);
                (stem +:+ ".lower" +:+ postfix cfg, VFloat min);
                (stem +:+ ".count" +:+ postfix cfg, VInt (Z.of_nat (length timer))) ]).

Definition timers_records (cfg : config) (o : range_order)
    (pctls : list Percentile) (s : store) : outcome (list record) :=
  rss ← mapM (timer_records cfg pctls) (visit o (timers s));
  Ok (concat rss).

(** *** A whole flush: the four procedures in the order of [submit] *)

Definition flushed (cfg : config) (s : store) : store :=
  set_sets (λ _, ∅) (set_timers (λ _, ∅) (gauges_flushed cfg (counters_flushed cfg s))).

Definition flush_records (cfg : config) (os : orders) (s : store)
    : outcome (list record) :=
  let cs := counters_records (ord_counters os) (ord_inactive os) s in
  let gs := gauges_records (ord_gauges os) s in
  ts ← timers_records cfg (ord_timers os) (percentThreshold cfg) s;
  Ok (cs ++ gs ++ ts ++ sets_records (ord_sets os) s).

(** The flush cycles of the counter procedure alone, one backend each:
    cycle [i] runs on a fresh buffer (a fresh [packets]) with the orders
    [os i] at time [now i], and nothing is ingested between cycles. *)
Definition graphite_cycle (cfg : config) (o : orders) (now : Z) (s : store)
    : list Graphite.line * store :=
  let '(buffer, _, s') :=
    Graphite.processCounters cfg (ord_counters o) (ord_inactive o) [] now s in
  (buffer, s').

Definition falcon_cycle (cfg : config) (o : orders) (now : Z) (s : store)
    : list OpenFalcon.openFalconMsg * store :=
  let '(bd, s') :=
    OpenFalcon.processCounters cfg (ord_counters o) (ord_inactive o)
      (OpenFalcon.NewOpenFalconBackend "") now s in
  (OpenFalcon.packets bd, s').

Fixpoint graphite_run (cfg : config) (os : nat → orders) (now : nat → Z)
    (n : nat) (s : store) : store :=
  match n with
  | O => s
  | S n' => (graphite_cycle cfg (os n') (now n') (graphite_run cfg os now n' s)).2
  end.

Fixpoint falcon_run (cfg : config) (os : nat → orders) (now : nat → Z)
    (n : nat) (s : store) : store :=
  match n with
  | O => s
  | S n' => (falcon_cycle cfg (os n') (now n') (falcon_run cfg os now n' s)).2
  end.

(** Repeated gauge flushes, likewise. *)
Fixpoint graphite_gauge_run (cfg : config) (os : nat → orders) (now : nat → Z)
    (n : nat) (s : store) : store :=
  match n with
  | O => s
  | S n' => (Graphite.processGauges cfg (ord_gauges (os n')) [] (now n')
               (graphite_gauge_run cfg os now n' s)).2
  end.

Fixpoint falcon_gauge_run (cfg : config) (os : nat → orders) (now : nat → Z)
    (n : nat) (s : store) : store :=
  match n with
  | O => s
  | S n' => (OpenFalcon.processGauges cfg (ord_gauges (os n'))
               (OpenFalcon.NewOpenFalconBackend "") (now n')
               (falcon_gauge_run cfg os now n' s)).2
  end.

Definition gauges_step (cfg : config) (s : store) (e : string * float) : store :=
  if deleteGauges cfg then set_gauges (delete e.1) s else s.
Definition sets_step (s : store) (e : string * list string) : store :=
  set_sets (delete e.1) s.
Definition timers_step (s : store) (e : string * list float) : store :=
  set_timers (delete e.1) s.

(** [packets] after the records [rs] have gone through [appendPacket]. *)
Definition push (cfg : config) (now : Z) (bd : OpenFalcon.openFalconBackend)
    (rs : list record) : OpenFalcon.openFalconBackend :=
  OpenFalcon.set_packets (OpenFalcon.packets bd ++ (to_packet cfg now <$> rs)) bd.

(** [s] contains the byte [c]. *)
Fixpoint contains_byte (c : Ascii.ascii) (s : string) : bool :=
  match s with
  | EmptyString => false
  | String a s' => if Ascii.eqb a c then true else contains_byte c s'
  end.

Definition slash : Ascii.ascii := Ascii.ascii_of_nat 47.

(** What both backends do with one timer bucket [e]: the body of the
    [range timers] loop returns, having emitted the records [rs] and
    deleted the bucket ([bucket_emits]), or it panics ([bucket_panics]). *)
Definition bucket_emits (cfg : config) (now : Z) (pctls : list Percentile)
    (e : string * list float) (rs : list record) : Prop :=
  (∀ buffer num s,
     Graphite.timers_body cfg now pctls (buffer, num, s) e
     = Ok (buffer ++ (to_line now <$> rs), num + 1, set_timers (delete e.1) s))
  ∧ (∀ bd s,
       OpenFalcon.timers_body cfg now pctls (bd, s) e
       = Ok (push cfg now bd rs, set_timers (delete e.1) s)).


(** The binary64 representation of [1.0]. *)
Definition SF_one : spec_float := S754_finite false 4503599627370496 (-52).

(** [num] in graphite's [submit]. *)
Definition graphite_num (os : orders) (s : store) : Z :=
  Z.of_nat (length (counters_records (ord_counters os) (ord_inactive os) s))
  + Z.of_nat (length (gauges_records (ord_gauges os) s))
  + Z.of_nat (size (timers s))
  + Z.of_nat (length (sets_records (ord_sets os) s)).

(** ** Example data: the default flags of the README, two percentiles *)

Definition upper_50 : Percentile := {| pct_float := 50%float; pct_str := "50" |}.
Definition lower_50 : Percentile := {| pct_float := (-50)%float; pct_str := "-50" |}.

Definition example_config : config :=
  {| debug := false; deleteGauges := true; persistCountKeys := 60; postfix := "";
     percentThreshold := [upper_50; lower_50]; flushInterval := 10;
     graphiteAddress := "127.0.0.1:2003" |}.

Definition hits_store : store :=
  set_counters (λ _, {[ "hits" := 5%float ]}) empty_store.

Definition five_samples : list float := [5; 3; 1; 2; 4]%float.

Definition refused : Graphite.network :=
  {| Graphite.dial_err := Some "connection refused";
     Graphite.deadline_err := None; Graphite.write_err := None |}.

Definition connected : Graphite.network :=
  {| Graphite.dial_err := None; Graphite.deadline_err := None;
     Graphite.write_err := None |}.

Definition example_backend : Graphite.graphiteBackend :=
  {| Graphite.addr := "127.0.0.1:2003" |}.

(** ** Comparing two runs of a procedure under different visiting orders *)

(** Two results of a graphite procedure that differ at most in the order
    of the lines. *)
Definition graphite_same (a a' : Graphite.acc) : Prop :=
  a.1.1 ≡ₚ a'.1.1 ∧ a.1.2 = a'.1.2 ∧ a.2 = a'.2.

(** Two results of an open-falcon procedure that differ at most in the
    order of the packets. *)
Definition falcon_same (a a' : OpenFalcon.acc) : Prop :=
  OpenFalcon.packets a.1 ≡ₚ OpenFalcon.packets a'.1
  ∧ OpenFalcon.addr a.1 = OpenFalcon.addr a'.1
  ∧ OpenFalcon.postUrl a.1 = OpenFalcon.postUrl a'.1
  ∧ a.2 = a'.2.

(** The same for a procedure that may panic: both runs panic, or both
    return and the results are the same. *)
Definition outcome_same {A : Type} (same : A → A → Prop) (x x' : outcome A) : Prop :=
  match x, x' with
  | Ok a, Ok a' => same a a'
  | Panic _, Panic _ => True
  | _, _ => False
  end.

(** A store with a live counter and a key that has been inactive for two
    cycles. *)
Definition aging_store : store :=
  set_countInactivity (λ _, {[ "old" := 2 ]}) hits_store.

(** One timer bucket with five samples, added to [hits_store]. *)
Definition timed_store : store :=
  set_timers (λ _, {[ "t" := five_samples ]}) hits_store.

(** An agent that accepts every request. *)
Definition accepting : OpenFalcon.network :=
  {| OpenFalcon.marshal := λ _, inl "[]"; OpenFalcon.new_request_ok := true;
     OpenFalcon.do_err := None |}.

(** The fields every packet of one flush shares (the struct literal of
    [appendPacket], openfalcon.go 44-52). *)
Definition stamped (cfg : config) (now : Z) (p : OpenFalcon.openFalconMsg) : Prop :=
  OpenFalcon.Endpoint p = "statsd" ∧ OpenFalcon.CounterType p = "GAUGE"
  ∧ OpenFalcon.Step p = flushInterval cfg ∧ OpenFalcon.Timestamp p = now.

(** [hits_store] with a gauge set, too. *)
Definition gauged_store : store := set_gauges (λ _, {[ "temp" := 21%float ]}) hits_store.

(** ** Visiting orders *)

Section visit.
Context {V : Type} (o : range_order) (m : gmap string V).

Lemma visit_NoDup_fst : NoDup (visit o m).*1.
Proof.
  rewrite (visit_perm o V m). apply NoDup_fst_map_to_list.
Qed.

Lemma elem_of_visit k v : (k, v) ∈ visit o m ↔ m !! k = Some v.
Proof.
  rewrite (visit_perm o V m). apply elem_of_map_to_list.
Qed.

Lemma elem_of_visit_fst k : k ∈ (visit o m).*1 ↔ is_Some (m !! k).
Proof.
  rewrite list_elem_of_fmap. split.
  - intros [[k' v] [-> Hin]]. apply elem_of_visit in Hin. eauto.
  - intros [v Hv]. exists (k, v). split; [done|]. by apply elem_of_visit.
Qed.

Lemma visit_length : length (visit o m) = size m.
Proof.
  rewrite (visit_perm o V m). apply length_map_to_list.
Qed.

Lemma visit_NoDup : NoDup (visit o m).
Proof.
  rewrite (visit_perm o V m). apply NoDup_map_to_list.
Qed.

End visit.

Lemma visit_empty {V : Type} (o : range_order) : visit o (∅ : gmap string V) = [].
Proof.
  apply Permutation_nil_r. rewrite (visit_perm o V ∅). by rewrite map_to_list_empty.
Qed.

Lemma store_eq (s1 s2 : store) :
  counters s1 = counters s2 → gauges s1 = gauges s2 → timers s1 = timers s2 →
  sets s1 = sets s2 → countInactivity s1 = countInactivity s2 → s1 = s2.
Proof.
  destruct s1, s2; simpl; intros; by subst.
Qed.

(** ** The store transitions of the counter loops *)

Lemma decide_elem_of_cons {A B : Type} `{EqDecision A} (k b : A) (l : list A) (x y : B) :
  (if decide (k ∈ b :: l) then x else y)
  = if decide (k = b) then x else if decide (k ∈ l) then x else y.
Proof.
  repeat case_decide; try done.
  - exfalso. apply elem_of_cons in H. tauto.
  - exfalso. apply H. subst. apply list_elem_of_here.
  - exfalso. apply H. by apply list_elem_of_further.
Qed.

Lemma decide_elem_of_nil {A B : Type} `{EqDecision A} (k : A) (x y : B) :
  (if decide (k ∈ @nil A) then x else y) = y.
Proof.
  case_decide as H; [|done]. by apply not_elem_of_nil in H.
Qed.

Lemma counters_step_fold (l : list (string * float)) (s : store) :
  let s' := foldl counters_step s l in
  (∀ k, counters s' !! k = if decide (k ∈ l.*1) then None else counters s !! k)
  ∧ (∀ k, countInactivity s' !! k
          = if decide (k ∈ l.*1) then Some 0 else countInactivity s !! k)
  ∧ gauges s' = gauges s ∧ timers s' = timers s ∧ sets s' = sets s.
Proof.
  revert s. induction l as [|[b v] l IH]; intros s.
  - repeat split; intros k; by rewrite fmap_nil, decide_elem_of_nil.
  - destruct (IH (counters_step s (b, v))) as (Hc & Hi & Hg & Ht & Hs).
    cbn [foldl]. repeat split; try done; intros k.
    + rewrite Hc, fmap_cons, decide_elem_of_cons. cbn [fst counters counters_step set_counters set_countInactivity].
      destruct (decide (k = b)) as [->|Hkb].
      * rewrite lookup_delete_eq. by case_decide.
      * by rewrite lookup_delete_ne.
    + rewrite Hi, fmap_cons, decide_elem_of_cons. cbn [fst countInactivity counters_step set_counters set_countInactivity].
      destruct (decide (k = b)) as [->|Hkb].
      * rewrite lookup_insert_eq. by case_decide.
      * by rewrite lookup_insert_ne.
Qed.

Lemma counters_loop_store (oc : range_order) (s : store) :
  foldl counters_step s (visit oc (counters s))
  = {| counters := ∅; gauges := gauges s; timers := timers s; sets := sets s;
       countInactivity := reset_inactivity s |}.
Proof.
  destruct (counters_step_fold (visit oc (counters s)) s) as (Hc & Hi & Hg & Ht & Hs).
  apply store_eq; simpl; try done.
  - apply map_eq. intros k. rewrite Hc, lookup_empty. case_decide as Hk; [done|].
    rewrite elem_of_visit_fst in Hk. by apply eq_None_not_Some.
  - apply map_eq. intros k. rewrite Hi. unfold reset_inactivity.
    rewrite lookup_union, lookup_fmap. case_decide as Hk.
    + apply elem_of_visit_fst in Hk as [v ->]. simpl.
      by destruct (countInactivity s !! k).
    + rewrite elem_of_visit_fst in Hk. apply eq_None_not_Some in Hk. rewrite Hk.
      simpl. by destruct (countInactivity s !! k).
Qed.

Lemma get0_Some (m : gmap string Z) (k : string) (c : Z) :
  m !! k = Some c → get0 m k = c.
Proof.
  unfold get0. by intros ->.
Qed.

Lemma get0_insert_eq (m : gmap string Z) (k : string) (c : Z) :
  get0 (<[k := c]> m) k = c.
Proof.
  apply get0_Some, lookup_insert_eq.
Qed.

Lemma inactive_step_frame (cfg : config) (s : store) (e : string * Z) :
  counters (inactive_step cfg s e) = counters s
  ∧ gauges (inactive_step cfg s e) = gauges s
  ∧ timers (inactive_step cfg s e) = timers s
  ∧ sets (inactive_step cfg s e) = sets s.
Proof.
  unfold inactive_step. by destruct (_ <? _).
Qed.

Lemma inactive_step_lookup_ne (cfg : config) (s : store) (e : string * Z) (k : string) :
  k ≠ e.1 →
  countInactivity (inactive_step cfg s e) !! k = countInactivity s !! k.
Proof.
  intros Hk. unfold inactive_step. destruct (_ <? _); cbn.
  - rewrite lookup_delete_ne by done. by rewrite lookup_insert_ne.
  - by rewrite lookup_insert_ne.
Qed.

Lemma inactive_step_lookup_eq (cfg : config) (s : store) (e : string * Z) (c : Z) :
  countInactivity s !! e.1 = Some c →
  countInactivity (inactive_step cfg s e) !! e.1 = age cfg c.
Proof.
  intros Hc. unfold inactive_step, age. cbn [countInactivity set_countInactivity].
  rewrite get0_insert_eq, (get0_Some _ _ _ Hc).
  destruct (_ <? _); cbn [countInactivity set_countInactivity];
    rewrite ?(get0_Some _ _ _ Hc).
  - apply lookup_delete_eq.
  - apply lookup_insert_eq.
Qed.

Lemma inactive_step_fold (cfg : config) (l : list (string * Z)) (s : store) :
  NoDup l.*1 →
  (∀ k c, (k, c) ∈ l → countInactivity s !! k = Some c) →
  let s' := foldl (inactive_step cfg) s l in
  (∀ k, countInactivity s' !! k
        = if decide (k ∈ l.*1) then countInactivity s !! k ≫= age cfg
          else countInactivity s !! k)
  ∧ counters s' = counters s ∧ gauges s' = gauges s
  ∧ timers s' = timers s ∧ sets s' = sets s.
Proof.
  revert s. induction l as [|[b c] l IH]; intros s Hnd Hl.
  - repeat split; intros k; by rewrite fmap_nil, decide_elem_of_nil.
  - rewrite fmap_cons in Hnd. apply NoDup_cons in Hnd as [Hb Hnd].
    assert (countInactivity s !! b = Some c) as Hbc
      by apply Hl, list_elem_of_here.
    destruct (inactive_step_frame cfg s (b, c)) as (Fc & Fg & Ft & Fs).
    destruct (IH (inactive_step cfg s (b, c)) Hnd) as (Hi & Hc & Hg & Ht & Hs).
    { intros k c' Hin. rewrite inactive_step_lookup_ne.
      - by apply Hl, list_elem_of_further.
      - intros ->. apply Hb. apply list_elem_of_fmap. by exists (b, c'). }
    cbn [foldl]. repeat split; [|congruence..].
    intros k. rewrite Hi, fmap_cons, decide_elem_of_cons. cbn [fst].
    destruct (decide (k = b)) as [->|Hkb].
    + rewrite decide_False by done.
      pose proof (inactive_step_lookup_eq cfg s (b, c) c Hbc) as He.
      cbn [fst] in He. by rewrite He, Hbc.
    + by rewrite inactive_step_lookup_ne.
Qed.

Lemma inactive_loop_store (cfg : config) (oi : range_order) (s : store) :
  foldl (inactive_step cfg) s (visit oi (countInactivity s))
  = set_countInactivity (omap (age cfg)) s.
Proof.
  destruct (inactive_step_fold cfg (visit oi (countInactivity s)) s)
    as (Hi & Hc & Hg & Ht & Hs).
  { apply visit_NoDup_fst. }
  { intros k c. apply elem_of_visit. }
  apply store_eq; simpl; try done.
  apply map_eq. intros k. rewrite Hi, lookup_omap. case_decide as Hk; [done|].
  rewrite elem_of_visit_fst in Hk. apply eq_None_not_Some in Hk. by rewrite Hk.
Qed.

Lemma counters_loops_store (cfg : config) (oc oi : range_order) (s : store) :
  let s1 := foldl counters_step s (visit oc (counters s)) in
  countInactivity s1 = reset_inactivity s
  ∧ foldl (inactive_step cfg) s1 (visit oi (countInactivity s1))
    = counters_flushed cfg s.
Proof.
  cbn zeta. rewrite counters_loop_store. split; [done|].
  by rewrite inactive_loop_store.
Qed.

(** ** Deleting every visited key *)

Lemma delete_fold_lookup {V E : Type} (key : E → string) (l : list E)
    (m : gmap string V) (k : string) :
  foldl (λ m e, delete (key e) m) m l !! k
  = if decide (k ∈ key <$> l) then None else m !! k.
Proof.
  revert m. induction l as [|e l IH]; intros m.
  - by rewrite fmap_nil, decide_elem_of_nil.
  - cbn [foldl]. rewrite IH, fmap_cons, decide_elem_of_cons.
    destruct (decide (k = key e)) as [->|Hk].
    + rewrite lookup_delete_eq. by case_decide.
    + by rewrite lookup_delete_ne.
Qed.

Lemma delete_fold_visit {V : Type} (o : range_order) (m : gmap string V) :
  foldl (λ m e, delete e.1 m) m (visit o m) = ∅.
Proof.
  apply map_eq. intros k. rewrite delete_fold_lookup, lookup_empty.
  case_decide as Hk; [done|].
  rewrite elem_of_visit_fst in Hk. by apply eq_None_not_Some.
Qed.

Lemma gauges_loop_store (cfg : config) (o : range_order) (s : store) :
  foldl (gauges_step cfg) s (visit o (gauges s)) = gauges_flushed cfg s.
Proof.
  unfold gauges_flushed, gauges_step. destruct (deleteGauges cfg).
  - transitivity (set_gauges (λ m, foldl (λ m e, delete e.1 m) m (visit o (gauges s))) s).
    + generalize (visit o (gauges s)). intros l. revert s.
      induction l as [|e l IH]; intros s; [by destruct s|].
      cbn [foldl]. by rewrite IH.
    + unfold set_gauges. by rewrite delete_fold_visit.
  - generalize (visit o (gauges s)). induction l as [|e l IH]; [done|].
    by cbn [foldl].
Qed.

Lemma sets_loop_store (o : range_order) (s : store) :
  foldl sets_step s (visit o (sets s)) = set_sets (λ _, ∅) s.
Proof.
  transitivity (set_sets (λ m, foldl (λ m e, delete e.1 m) m (visit o (sets s))) s).
  - generalize (visit o (sets s)). intros l. revert s.
    induction l as [|e l IH]; intros s; [by destruct s|].
    cbn [foldl]. by rewrite IH.
  - unfold set_sets. by rewrite delete_fold_visit.
Qed.

Lemma timers_loop_store (o : range_order) (s : store) :
  foldl timers_step s (visit o (timers s)) = set_timers (λ _, ∅) s.
Proof.
  transitivity (set_timers (λ m, foldl (λ m e, delete e.1 m) m (visit o (timers s))) s).
  - generalize (visit o (timers s)). intros l. revert s.
    induction l as [|e l IH]; intros s; [by destruct s|].
    cbn [foldl]. by rewrite IH.
  - unfold set_timers. by rewrite delete_fold_visit.
Qed.

(** ** graphite: each procedure prints the records of its loops *)

Ltac triple :=
  lazymatch goal with
  | |- (_, _, _) = (_, _, _) => apply (f_equal2 pair); [apply (f_equal2 pair)|]
  end.

Lemma graphite_counters_loop (now : Z) (l : list (string * float))
    (buffer : list Graphite.line) (num : Z) (s : store) :
  foldl (Graphite.counters_body now) (buffer, num, s) l
  = (buffer ++ (to_line now <$> (counter_record <$> l)),
     num + Z.of_nat (length l), foldl counters_step s l).
Proof.
  revert buffer num s. induction l as [|[b v] l IH]; intros buffer num s.
  - cbn. by rewrite app_nil_r, Z.add_0_r.
  - cbn [foldl]. unfold Graphite.counters_body at 2. rewrite IH.
    unfold Graphite.Fprintf. rewrite <- app_assoc. cbn [length].
    triple; [done | lia | done].
Qed.

Lemma omap_zero_record_cons (b : string) (c : Z) (l : list (string * Z)) :
  omap zero_record ((b, c) :: l)
  = (if 0 <? c then [(b, VZero)] else []) ++ omap zero_record l.
Proof.
  cbn [omap list_omap]. unfold zero_record at 1. cbn [fst snd]. by destruct (0 <? c).
Qed.

Lemma graphite_inactive_loop (cfg : config) (now : Z) (l : list (string * Z))
    (buffer : list Graphite.line) (num : Z) (s : store) :
  foldl (Graphite.inactive_body cfg now) (buffer, num, s) l
  = (buffer ++ (to_line now <$> omap zero_record l),
     num + Z.of_nat (length (omap zero_record l)),
     foldl (inactive_step cfg) s l).
Proof.
  revert buffer num s. induction l as [|[b c] l IH]; intros buffer num s.
  - cbn. by rewrite app_nil_r, Z.add_0_r.
  - cbn [foldl]. rewrite omap_zero_record_cons.
    assert (Graphite.inactive_body cfg now (buffer, num, s) (b, c)
            = (buffer ++ (to_line now <$> if 0 <? c then [(b, VZero)] else []),
               num + Z.of_nat (length (if 0 <? c then [(b, VZero)] else [])),
               inactive_step cfg s (b, c))) as ->.
    { unfold Graphite.inactive_body, inactive_step, Graphite.Fprintf.
      destruct (0 <? c); cbn [fst snd fmap list_fmap length];
        rewrite ?app_nil_r, ?Z.add_0_r; done. }
    rewrite IH, fmap_app, length_app, <- app_assoc, Nat2Z.inj_add, Z.add_assoc.
    done.
Qed.

Lemma graphite_processCounters_spec (cfg : config) (oc oi : range_order)
    (buffer : list Graphite.line) (now : Z) (s : store) :
  Graphite.processCounters cfg oc oi buffer now s
  = (buffer ++ (to_line now <$> counters_records oc oi s),
     Z.of_nat (length (counters_records oc oi s)),
     counters_flushed cfg s).
Proof.
  unfold Graphite.processCounters. rewrite graphite_counters_loop. cbn [snd].
  destruct (counters_loops_store cfg oc oi s) as [Hi Hs]. cbn zeta in Hi, Hs.
  rewrite graphite_inactive_loop, Hs, Hi. unfold counters_records.
  rewrite fmap_app, app_assoc, length_app, length_fmap.
  triple; [done | lia | done].
Qed.

Lemma graphite_gauges_loop (cfg : config) (now : Z) (l : list (string * float))
    (buffer : list Graphite.line) (num : Z) (s : store) :
  foldl (Graphite.gauges_body cfg now) (buffer, num, s) l
  = (buffer ++ (to_line now <$> (counter_record <$> l)),
     num + Z.of_nat (length l), foldl (gauges_step cfg) s l).
Proof.
  revert buffer num s. induction l as [|[b v] l IH]; intros buffer num s.
  - cbn. by rewrite app_nil_r, Z.add_0_r.
  - cbn [foldl]. unfold Graphite.gauges_body at 2. fold (gauges_step cfg s (b, v)).
    rewrite IH. unfold Graphite.Fprintf. rewrite <- app_assoc. cbn [length].
    triple; [done | lia | done].
Qed.

Lemma graphite_processGauges_spec (cfg : config) (o : range_order)
    (buffer : list Graphite.line) (now : Z) (s : store) :
  Graphite.processGauges cfg o buffer now s
  = (buffer ++ (to_line now <$> gauges_records o s),
     Z.of_nat (length (gauges_records o s)),
     gauges_flushed cfg s).
Proof.
  unfold Graphite.processGauges, gauges_records.
  by rewrite graphite_gauges_loop, gauges_loop_store, length_fmap.
Qed.

Lemma graphite_sets_loop (now : Z) (l : list (string * list string))
    (buffer : list Graphite.line) (num : Z) (s : store) :
  foldl (Graphite.sets_body now) (buffer, num, s) l
  = (buffer ++ (to_line now <$> (set_record <$> l)), num, foldl sets_step s l).
Proof.
  revert buffer s. induction l as [|[b v] l IH]; intros buffer s.
  - cbn. by rewrite app_nil_r.
  - cbn [foldl]. unfold Graphite.sets_body at 2. fold (sets_step s (b, v)).
    rewrite IH. unfold Graphite.Fprintf. by rewrite <- app_assoc.
Qed.

Lemma graphite_processSets_spec (o : range_order)
    (buffer : list Graphite.line) (now : Z) (s : store) :
  Graphite.processSets o buffer now s
  = (buffer ++ (to_line now <$> sets_records o s),
     Z.of_nat (length (sets_records o s)),
     set_sets (λ _, ∅) s).
Proof.
  unfold Graphite.processSets, sets_records.
  by rewrite graphite_sets_loop, sets_loop_store, length_fmap, visit_length.
Qed.

(** ** The percentile loop *)

Lemma threshold_single (timer : list float) (m : float) (pct : Percentile) :
  (1 <? Z.of_nat (length timer)) = false → threshold timer m pct = Ok m.
Proof.
  unfold threshold. by intros ->.
Qed.

Lemma threshold_several (timer : list float) (m m' : float) (pct : Percentile) :
  (1 <? Z.of_nat (length timer)) = true →
  threshold timer m pct = threshold timer m' pct.
Proof.
  unfold threshold. by intros ->.
Qed.

(** The threshold of a round does not depend on the rounds before it:
    [maxAtThreshold] enters a round either unused or still equal to [max]. *)
Lemma threshold_max (timer : list float) (m max : float) (pct : Percentile) :
  ((1 <? Z.of_nat (length timer)) = false → m = max) →
  threshold timer m pct = threshold timer max pct
  ∧ ∀ t, threshold timer m pct = Ok t →
         (1 <? Z.of_nat (length timer)) = false → t = max.
Proof.
  intros Hm. destruct (1 <? Z.of_nat (length timer)) eqn:Hlen.
  - split; [by apply threshold_several | done].
  - rewrite (Hm eq_refl). split; [done|].
    intros t. rewrite threshold_single by done. by intros [= ->].
Qed.

Lemma graphite_pct_loop {X : Type} (cfg : config) (now : Z) (stem : string)
    (timer : list float) (max : float) (K : list Graphite.line → outcome X)
    (pctls : list Percentile) (buffer : list Graphite.line) (m : float) :
  ((1 <? Z.of_nat (length timer)) = false → m = max) →
  ('(buffer', _) ← foldM (Graphite.pct_body cfg now stem timer) (buffer, m) pctls;
   K buffer')
  = (rs ← mapM (pct_record cfg stem timer max) pctls;
     K (buffer ++ (to_line now <$> rs))).
Proof.
  revert buffer m. induction pctls as [|pct pctls IH]; intros buffer m Hm.
  - cbn. by rewrite app_nil_r.
  - destruct (threshold_max timer m max pct Hm) as [Ht Hinv].
    cbn [foldM mapM].
    change (Graphite.pct_body cfg now stem timer (buffer, m) pct)
      with (t ← threshold timer m pct; name ← pct_name cfg stem pct;
            Ok (Graphite.Fprintf buffer name (VFloat t) now, t)).
    change (pct_record cfg stem timer max pct)
      with (t ← threshold timer max pct; name ← pct_name cfg stem pct;
            Ok (name, VFloat t)).
    rewrite Ht in *. destruct (threshold timer max pct) as [t|w]; [|done].
    cbn [mbind outcome_bind].
    destruct (pct_name cfg stem pct) as [name|w]; [|done].
    cbn [mbind outcome_bind]. rewrite IH by (intros; by apply Hinv).
    destruct (mapM _ pctls) as [rs|w]; [|done].
    cbn [mbind outcome_bind mret outcome_ret fmap list_fmap].
    unfold Graphite.Fprintf. by rewrite <- app_assoc.
Qed.

Lemma graphite_timers_body_spec (cfg : config) (now : Z) (pctls : list Percentile)
    (buffer : list Graphite.line) (num : Z) (s : store) (e : string * list float) :
  Graphite.timers_body cfg now pctls (buffer, num, s) e
  = (rs ← timer_records cfg pctls e;
     Ok (buffer ++ (to_line now <$> rs), num + 1, timers_step s e)).
Proof.
  destruct e as [bucket timer]. unfold Graphite.timers_body, timer_records.
  cbn [fst snd].
  destruct (slice_to _ _) as [stem|w]; [|done]. cbn [mbind outcome_bind].
  destruct (index (sort_floats timer) 0) as [min|w]; [|done].
  cbn [mbind outcome_bind].
  destruct (index (sort_floats timer) _) as [max|w]; [|done].
  cbn [mbind outcome_bind].
  rewrite (graphite_pct_loop cfg now stem (sort_floats timer) max) by done.
  destruct (mapM _ pctls) as [rs|w]; [|done].
  cbn [mbind outcome_bind]. unfold Graphite.Fprintf.
  rewrite fmap_app, <- !app_assoc. done.
Qed.

Lemma graphite_timers_loop (cfg : config) (now : Z) (pctls : list Percentile)
    (l : list (string * list float))
    (buffer : list Graphite.line) (num : Z) (s : store) :
  foldM (Graphite.timers_body cfg now pctls) (buffer, num, s) l
  = (rss ← mapM (timer_records cfg pctls) l;
     Ok (buffer ++ (to_line now <$> concat rss),
         num + Z.of_nat (length l), foldl timers_step s l)).
Proof.
  revert buffer num s. induction l as [|e l IH]; intros buffer num s.
  - cbn. by rewrite app_nil_r, Z.add_0_r.
  - cbn [foldM mapM]. rewrite graphite_timers_body_spec.
    destruct (timer_records cfg pctls e) as [rs|w]; [|done].
    cbn [mbind outcome_bind]. rewrite IH.
    destruct (mapM _ l) as [rss|w]; [|done].
    cbn [mbind outcome_bind mret outcome_ret concat foldl length].
    rewrite fmap_app, <- app_assoc.
    f_equal. triple; [done | lia | done].
Qed.

Lemma graphite_processTimers_spec (cfg : config) (o : range_order)
    (buffer : list Graphite.line) (now : Z) (pctls : list Percentile) (s : store) :
  Graphite.processTimers cfg o buffer now pctls s
  = (rs ← timers_records cfg o pctls s;
     Ok (buffer ++ (to_line now <$> rs), Z.of_nat (size (timers s)),
         set_timers (λ _, ∅) s)).
Proof.
  unfold Graphite.processTimers, timers_records.
  rewrite graphite_timers_loop, timers_loop_store, visit_length.
  by destruct (mapM _ _).
Qed.

(** ** open-falcon: each procedure appends the packets of the same records *)

Lemma appendPacket_push (cfg : config) (bd : OpenFalcon.openFalconBackend)
    (metric : string) (v : value) (now : Z) :
  OpenFalcon.appendPacket cfg bd metric (OpenFalcon.float_of_value v) now
  = push cfg now bd [(metric, v)].
Proof.
  unfold OpenFalcon.appendPacket, push, to_packet. cbn [fmap list_fmap fst snd].
  by destruct (OpenFalcon.parseMetric metric).
Qed.

Lemma push_nil (cfg : config) (now : Z) (bd : OpenFalcon.openFalconBackend) :
  push cfg now bd [] = bd.
Proof.
  destruct bd. unfold push, OpenFalcon.set_packets. cbn. by rewrite app_nil_r.
Qed.

Lemma push_push (cfg : config) (now : Z) (bd : OpenFalcon.openFalconBackend)
    (rs rs' : list record) :
  push cfg now (push cfg now bd rs) rs' = push cfg now bd (rs ++ rs').
Proof.
  unfold push, OpenFalcon.set_packets. cbn. by rewrite fmap_app, app_assoc.
Qed.

Lemma packets_push (cfg : config) (now : Z) (bd : OpenFalcon.openFalconBackend)
    (rs : list record) :
  OpenFalcon.packets (push cfg now bd rs)
  = OpenFalcon.packets bd ++ (to_packet cfg now <$> rs).
Proof. done. Qed.

Lemma falcon_counters_loop (cfg : config) (now : Z) (l : list (string * float))
    (bd : OpenFalcon.openFalconBackend) (s : store) :
  foldl (OpenFalcon.counters_body cfg now) (bd, s) l
  = (push cfg now bd (counter_record <$> l), foldl counters_step s l).
Proof.
  revert bd s. induction l as [|[b v] l IH]; intros bd s.
  - cbn. by rewrite push_nil.
  - cbn [foldl]. unfold OpenFalcon.counters_body at 2.
    rewrite (appendPacket_push cfg bd b (VFloat v)), IH, push_push. done.
Qed.

Lemma falcon_inactive_loop (cfg : config) (now : Z) (l : list (string * Z))
    (bd : OpenFalcon.openFalconBackend) (s : store) :
  foldl (OpenFalcon.inactive_body cfg now) (bd, s) l
  = (push cfg now bd (omap zero_record l), foldl (inactive_step cfg) s l).
Proof.
  revert bd s. induction l as [|[b c] l IH]; intros bd s.
  - cbn. by rewrite push_nil.
  - cbn [foldl]. rewrite omap_zero_record_cons.
    assert (OpenFalcon.inactive_body cfg now (bd, s) (b, c)
            = (push cfg now bd (if 0 <? c then [(b, VZero)] else []),
               inactive_step cfg s (b, c))) as ->.
    { unfold OpenFalcon.inactive_body.
      rewrite (appendPacket_push cfg bd b VZero).
      fold (inactive_step cfg s (b, c)).
      destruct (0 <? c); by rewrite ?push_nil. }
    by rewrite IH, push_push.
Qed.

Lemma falcon_processCounters_spec (cfg : config) (oc oi : range_order)
    (bd : OpenFalcon.openFalconBackend) (now : Z) (s : store) :
  OpenFalcon.processCounters cfg oc oi bd now s
  = (push cfg now bd (counters_records oc oi s), counters_flushed cfg s).
Proof.
  unfold OpenFalcon.processCounters. rewrite falcon_counters_loop. cbn [snd].
  destruct (counters_loops_store cfg oc oi s) as [Hi Hs]. cbn zeta in Hi, Hs.
  by rewrite falcon_inactive_loop, Hs, Hi, push_push.
Qed.

Lemma falcon_processGauges_spec (cfg : config) (o : range_order)
    (bd : OpenFalcon.openFalconBackend) (now : Z) (s : store) :
  OpenFalcon.processGauges cfg o bd now s
  = (push cfg now bd (gauges_records o s), gauges_flushed cfg s).
Proof.
  unfold OpenFalcon.processGauges, gauges_records.
  rewrite <- gauges_loop_store with (o := o).
  generalize (visit o (gauges s)). intros l. revert bd s.
  induction l as [|[b v] l IH]; intros bd s.
  - cbn. by rewrite push_nil.
  - cbn [foldl]. unfold OpenFalcon.gauges_body at 2.
    fold (gauges_step cfg s (b, v)).
    by rewrite (appendPacket_push cfg bd b (VFloat v)), IH, push_push.
Qed.

Lemma falcon_processSets_spec (cfg : config) (o : range_order)
    (bd : OpenFalcon.openFalconBackend) (now : Z) (s : store) :
  OpenFalcon.processSets cfg o bd now s
  = (push cfg now bd (sets_records o s), set_sets (λ _, ∅) s).
Proof.
  unfold OpenFalcon.processSets, sets_records.
  rewrite <- sets_loop_store with (o := o).
  generalize (visit o (sets s)). intros l. revert bd s.
  induction l as [|[b v] l IH]; intros bd s.
  - cbn. by rewrite push_nil.
  - cbn [foldl]. unfold OpenFalcon.sets_body at 2. fold (sets_step s (b, v)).
    by rewrite (appendPacket_push cfg bd b (VInt (uniqueCount v))), IH, push_push.
Qed.

Lemma falcon_pct_loop {X : Type} (cfg : config) (now : Z) (stem : string)
    (timer : list float) (max : float)
    (K : OpenFalcon.openFalconBackend → outcome X)
    (pctls : list Percentile) (bd : OpenFalcon.openFalconBackend) (m : float) :
  ((1 <? Z.of_nat (length timer)) = false → m = max) →
  ('(bd', _) ← foldM (OpenFalcon.pct_body cfg now stem timer) (bd, m) pctls; K bd')
  = (rs ← mapM (pct_record cfg stem timer max) pctls; K (push cfg now bd rs)).
Proof.
  revert bd m. induction pctls as [|pct pctls IH]; intros bd m Hm.
  - cbn. by rewrite push_nil.
  - destruct (threshold_max timer m max pct Hm) as [Ht Hinv].
    cbn [foldM mapM].
    change (OpenFalcon.pct_body cfg now stem timer (bd, m) pct)
      with (t ← threshold timer m pct; metric ← pct_name cfg stem pct;
            Ok (OpenFalcon.appendPacket cfg bd metric t now, t)).
    change (pct_record cfg stem timer max pct)
      with (t ← threshold timer max pct; name ← pct_name cfg stem pct;
            Ok (name, VFloat t)).
    rewrite Ht in *. destruct (threshold timer max pct) as [t|w]; [|done].
    cbn [mbind outcome_bind].
    destruct (pct_name cfg stem pct) as [name|w]; [|done].
    cbn [mbind outcome_bind]. rewrite IH by (intros; by apply Hinv).
    destruct (mapM _ pctls) as [rs|w]; [|done].
    cbn [mbind outcome_bind mret outcome_ret].
    by rewrite (appendPacket_push cfg bd name (VFloat t)), push_push.
Qed.

Lemma falcon_timers_body_spec (cfg : config) (now : Z) (pctls : list Percentile)
    (bd : OpenFalcon.openFalconBackend) (s : store) (e : string * list float) :
  OpenFalcon.timers_body cfg now pctls (bd, s) e
  = (rs ← timer_records cfg pctls e; Ok (push cfg now bd rs, timers_step s e)).
Proof.
  destruct e as [bucket timer]. unfold OpenFalcon.timers_body, timer_records.
  cbn [fst snd].
  destruct (slice_to _ _) as [stem|w]; [|done]. cbn [mbind outcome_bind].
  destruct (index (sort_floats timer) 0) as [min|w]; [|done].
  cbn [mbind outcome_bind].
  destruct (index (sort_floats timer) _) as [max|w]; [|done].
  cbn [mbind outcome_bind].
  rewrite (falcon_pct_loop cfg now stem (sort_floats timer) max) by done.
  destruct (mapM _ pctls) as [rs|w]; [|done].
  cbn [mbind outcome_bind].
  rewrite (appendPacket_push cfg _ _ (VFloat (mean_of (sort_floats timer)))).
  rewrite (appendPacket_push cfg _ _ (VFloat max)).
  rewrite (appendPacket_push cfg _ _ (VFloat min)).
  rewrite (appendPacket_push cfg _ _ (VInt (Z.of_nat (length (sort_floats timer))))).
  by rewrite !push_push, <- ?app_assoc.
Qed.

Lemma falcon_timers_loop (cfg : config) (now : Z) (pctls : list Percentile)
    (l : list (string * list float))
    (bd : OpenFalcon.openFalconBackend) (s : store) :
  foldM (OpenFalcon.timers_body cfg now pctls) (bd, s) l
  = (rss ← mapM (timer_records cfg pctls) l;
     Ok (push cfg now bd (concat rss), foldl timers_step s l)).
Proof.
  revert bd s. induction l as [|e l IH]; intros bd s.
  - cbn. by rewrite push_nil.
  - cbn [foldM mapM]. rewrite falcon_timers_body_spec.
    destruct (timer_records cfg pctls e) as [rs|w]; [|done].
    cbn [mbind outcome_bind]. rewrite IH.
    destruct (mapM _ l) as [rss|w]; [|done].
    cbn [mbind outcome_bind mret outcome_ret concat foldl].
    by rewrite push_push.
Qed.

Lemma falcon_processTimers_spec (cfg : config) (o : range_order)
    (bd : OpenFalcon.openFalconBackend) (now : Z) (pctls : list Percentile)
    (s : store) :
  OpenFalcon.processTimers cfg o bd now pctls s
  = (rs ← timers_records cfg o pctls s;
     Ok (push cfg now bd rs, set_timers (λ _, ∅) s)).
Proof.
  unfold OpenFalcon.processTimers, timers_records.
  rewrite falcon_timers_loop, timers_loop_store.
  by destruct (mapM _ _).
Qed.

(** ** The two [submit] methods in terms of the records of the flush *)

Lemma mapM_length {A B : Type} (f : A → outcome B) (l : list A) (k : list B) :
  mapM f l = Ok k → length k = length l.
Proof.
  revert k. induction l as [|a l IH]; intros k; cbn [mapM].
  - by intros [= <-].
  - destruct (f a) as [b|w]; [|done]. cbn [mbind outcome_bind].
    destruct (mapM f l) as [k'|w]; [|done]. cbn [mbind outcome_bind].
    intros [= <-]. cbn [length]. by rewrite (IH k').
Qed.

Lemma timer_records_nonempty (cfg : config) (pctls : list Percentile)
    (e : string * list float) (rs : list record) :
  timer_records cfg pctls e = Ok rs → rs ≠ [].
Proof.
  unfold timer_records.
  destruct (slice_to _ _) as [stem|w]; [|done]. cbn [mbind outcome_bind].
  destruct (index _ 0) as [min|w]; [|done]. cbn [mbind outcome_bind].
  destruct (index _ _) as [max|w]; [|done]. cbn [mbind outcome_bind].
  destruct (mapM _ pctls) as [ps|w]; [|done]. cbn [mbind outcome_bind].
  intros [= <-]. by destruct ps.
Qed.

(** The timer loop yields no record exactly when there is no timer bucket. *)
Lemma timers_records_nil (cfg : config) (o : range_order)
    (pctls : list Percentile) (s : store) (ts : list record) :
  timers_records cfg o pctls s = Ok ts → (ts = [] ↔ size (timers s) = 0%nat).
Proof.
  unfold timers_records. rewrite <- (visit_length o (timers s)).
  destruct (visit o (timers s)) as [|e l]; cbn [mapM].
  - by intros [= <-].
  - destruct (timer_records cfg pctls e) as [rs|w] eqn:He; [|done].
    cbn [mbind outcome_bind]. destruct (mapM _ l) as [rss|w]; [|done].
    cbn [mbind outcome_bind mret outcome_ret concat]. intros [= <-].
    apply timer_records_nonempty in He. split; [|done].
    intros [Hnil _]%app_eq_nil. done.
Qed.

Lemma graphite_num_zero (cfg : config) (os : orders) (s : store) (rs : list record) :
  flush_records cfg os s = Ok rs →
  (graphite_num os s =? 0) = match rs with [] => true | _ => false end.
Proof.
  unfold flush_records, graphite_num.
  destruct (timers_records _ _ _ _) as [ts|w] eqn:Ht; [|done].
  cbn [mbind outcome_bind]. intros [= <-].
  apply timers_records_nil in Ht.
  destruct (counters_records _ _ _) as [|c cs]; cbn [app length];
    [|apply Z.eqb_neq; lia].
  destruct (gauges_records _ _) as [|g gs]; cbn [app length];
    [|apply Z.eqb_neq; lia].
  destruct ts as [|t ts]; cbn [app length].
  - rewrite (proj1 Ht eq_refl).
    destruct (sets_records _ _); cbn [length]; [done | apply Z.eqb_neq; lia].
  - apply Z.eqb_neq. assert (size (timers s) ≠ 0%nat) by (intros H; by apply Ht in H).
    lia.
Qed.

(** Each procedure touches its own maps only: the records of a later
    procedure can be read off the store the flush started from. *)
Lemma records_after_earlier (cfg : config) (o : range_order)
    (pctls : list Percentile) (s : store) :
  gauges_records o (counters_flushed cfg s) = gauges_records o s
  ∧ timers_records cfg o pctls (gauges_flushed cfg (counters_flushed cfg s))
    = timers_records cfg o pctls s
  ∧ size (timers (gauges_flushed cfg (counters_flushed cfg s))) = size (timers s)
  ∧ sets_records o (set_timers (λ _, ∅) (gauges_flushed cfg (counters_flushed cfg s)))
    = sets_records o s.
Proof.
  unfold timers_records, sets_records, gauges_flushed.
  by destruct (deleteGauges cfg).
Qed.

Lemma graphite_submit_spec (cfg : config) (net : Graphite.network) (os : orders)
    (bd : Graphite.graphiteBackend) (now deadline : Z) (s : store) :
  Graphite.submit cfg net os bd now deadline s
  = match Graphite.dial_err net with
    | Some err =>
        let errmsg := "dialing " +:+ graphiteAddress cfg +:+ " failed - " +:+ err in
        if debug cfg then
          _ ← flush_records cfg os s;
          Ok (Some errmsg, flushed cfg s, [Graphite.Dial (Graphite.addr bd)])
        else Ok (Some errmsg, s, [Graphite.Dial (Graphite.addr bd)])
    | None =>
        let opened := [Graphite.Dial (Graphite.addr bd); Graphite.SetDeadline deadline] in
        match Graphite.deadline_err net with
        | Some err => Ok (Some err, s, opened ++ [Graphite.Close])
        | None =>
            rs ← flush_records cfg os s;
            match rs with
            | [] => Ok (None, flushed cfg s, opened ++ [Graphite.Close])
            | _ =>
                let sent := opened ++ [Graphite.Write (to_line now <$> rs); Graphite.Close] in
                match Graphite.write_err net with
                | Some err => Ok (Some ("failed to write stats - " +:+ err),
                                  flushed cfg s, sent)
                | None => Ok (None, flushed cfg s, sent)
                end
            end
        end
    end.
Proof.
  unfold Graphite.submit.
  rewrite graphite_processCounters_spec, graphite_processGauges_spec,
    graphite_processTimers_spec.
  destruct (records_after_earlier cfg (ord_gauges os) (percentThreshold cfg) s)
    as (Hg & _ & _ & _).
  destruct (records_after_earlier cfg (ord_timers os) (percentThreshold cfg) s)
    as (_ & Ht & Hn & _).
  destruct (records_after_earlier cfg (ord_sets os) (percentThreshold cfg) s)
    as (_ & _ & _ & Hs).
  rewrite Hg, Ht, Hn. unfold flush_records.
  pose proof (graphite_num_zero cfg os s) as Hz. unfold flush_records in Hz.
  destruct (timers_records _ _ _ s) as [ts|w].
  2:{ cbn [mbind outcome_bind]. destruct (Graphite.dial_err net); [|by destruct (Graphite.deadline_err net)].
      by destruct (debug cfg). }
  cbn [mbind outcome_bind] in *. rewrite graphite_processSets_spec, Hs.
  destruct (Graphite.dial_err net) as [err|]; [by destruct (debug cfg)|].
  destruct (Graphite.deadline_err net) as [err|]; [done|].
  fold (graphite_num os s). rewrite (Hz _ eq_refl), app_nil_l, !fmap_app.
  rewrite <- !fmap_app, <- ?app_assoc.
  by destruct (_ ++ _).
Qed.

Lemma falcon_submit_spec (cfg : config) (net : OpenFalcon.network) (os : orders)
    (bd : OpenFalcon.openFalconBackend) (now deadline : Z) (s : store) :
  OpenFalcon.submit cfg net os bd now deadline s
  = (rs ← flush_records cfg os s;
     let bd' := OpenFalcon.set_packets [] bd in
     let sent := OpenFalcon.packets bd ++ (to_packet cfg now <$> rs) in
     match sent with
     | [] => Ok (None, bd', flushed cfg s, [])
     | _ =>
         match OpenFalcon.marshal net sent with
         | inr err => Ok (Some ("failed to marshal json - " +:+ err), bd',
                          flushed cfg s, [])
         | inl buffer =>
             if OpenFalcon.new_request_ok net then
               match OpenFalcon.do_err net with
               | Some err => Ok (Some ("failed to write stats - " +:+ err), bd',
                                 flushed cfg s,
                                 [OpenFalcon.Post (OpenFalcon.postUrl bd) buffer])
               | None => Ok (None, bd', flushed cfg s,
                             [OpenFalcon.Post (OpenFalcon.postUrl bd) buffer])
               end
             else Panic NilDereference
         end
     end).
Proof.
  unfold OpenFalcon.submit.
  rewrite falcon_processCounters_spec, falcon_processGauges_spec,
    falcon_processTimers_spec.
  destruct (records_after_earlier cfg (ord_gauges os) (percentThreshold cfg) s)
    as (Hg & _ & _ & _).
  destruct (records_after_earlier cfg (ord_timers os) (percentThreshold cfg) s)
    as (_ & Ht & _ & _).
  destruct (records_after_earlier cfg (ord_sets os) (percentThreshold cfg) s)
    as (_ & _ & _ & Hs).
  rewrite Hg, Ht. unfold flush_records.
  destruct (timers_records _ _ _ s) as [ts|w]; [|done].
  cbn [mbind outcome_bind]. rewrite falcon_processSets_spec, Hs, !push_push.
  rewrite <- ?app_assoc, packets_push. fold (flushed cfg s). cbn zeta.
  destruct (OpenFalcon.packets bd ++ (to_packet cfg now <$> _)) as [|p ps] eqn:Hp.
  - done.
  - cbn [length]. rewrite (proj2 (Z.eqb_neq _ 0)) by lia. done.
Qed.

(** ** The records of one key *)

Lemma filter_key_notin {V : Type} (l : list (string * V)) (k : string) :
  k ∉ l.*1 → filter (λ e, e.1 = k) l = [].
Proof.
  induction l as [|[b v] l IH]; [done|].
  rewrite fmap_cons, not_elem_of_cons. cbn [fst]. intros [Hkb Hk].
  rewrite filter_cons_False by (cbn [fst]; congruence). by apply IH.
Qed.

Lemma filter_key_in {V : Type} (l : list (string * V)) (k : string) (v : V) :
  NoDup l.*1 → (k, v) ∈ l → filter (λ e, e.1 = k) l = [(k, v)].
Proof.
  induction l as [|[b w] l IH]; intros Hnd Hin.
  - by apply not_elem_of_nil in Hin.
  - rewrite fmap_cons in Hnd. apply NoDup_cons in Hnd as [Hb Hnd]. cbn [fst] in Hb.
    apply elem_of_cons in Hin as [[= -> ->]|Hin].
    + rewrite filter_cons_True by done. by rewrite filter_key_notin.
    + rewrite filter_cons_False; [by apply IH|]. cbn [fst]. intros ->.
      apply Hb, list_elem_of_fmap. by exists (k, v).
Qed.

Lemma filter_key_visit {V : Type} (o : range_order) (m : gmap string V) (k : string) :
  filter (λ e, e.1 = k) (visit o m)
  = match m !! k with Some v => [(k, v)] | None => [] end.
Proof.
  destruct (m !! k) as [v|] eqn:Hk.
  - apply filter_key_in; [apply visit_NoDup_fst | by apply elem_of_visit].
  - apply filter_key_notin. rewrite elem_of_visit_fst, Hk. by intros [? ?].
Qed.

Lemma named_app (k : string) (rs rs' : list record) :
  named k (rs ++ rs') = named k rs ++ named k rs'.
Proof. apply filter_app. Qed.

Lemma named_fmap {V : Type} (f : string * V → record) (k : string)
    (l : list (string * V)) :
  (∀ e, (f e).1 = e.1) →
  named k (f <$> l) = f <$> filter (λ e, e.1 = k) l.
Proof.
  intros Hf. induction l as [|e l IH]; [done|]. rewrite fmap_cons.
  unfold named in *. destruct (decide (e.1 = k)) as [He|He].
  - rewrite (filter_cons_True _ (f e)) by (by rewrite Hf).
    rewrite (filter_cons_True _ e) by done. rewrite fmap_cons. f_equal. exact IH.
  - rewrite (filter_cons_False _ (f e)) by (by rewrite Hf).
    rewrite (filter_cons_False _ e) by done. exact IH.
Qed.

Lemma named_zero_records (k : string) (l : list (string * Z)) :
  named k (omap zero_record l) = omap zero_record (filter (λ e, e.1 = k) l).
Proof.
  induction l as [|[b c] l IH]; [done|]. rewrite omap_zero_record_cons, named_app, IH.
  destruct (decide (b = k)) as [->|Hb].
  - rewrite filter_cons_True by done. rewrite omap_zero_record_cons.
    f_equal. unfold named. destruct (0 <? c); [|done]. by rewrite filter_cons_True.
  - rewrite filter_cons_False by done.
    unfold named. destruct (0 <? c); [|done]. by rewrite filter_cons_False.
Qed.

Lemma reset_inactivity_lookup (s : store) (k : string) :
  reset_inactivity s !! k
  = match counters s !! k with Some _ => Some 0 | None => countInactivity s !! k end.
Proof.
  unfold reset_inactivity. rewrite lookup_union, lookup_fmap.
  destruct (counters s !! k); cbn; by destruct (countInactivity s !! k).
Qed.

(** The records [processCounters] emits for one key: its value when it has
    one, else a zero when its inactivity count is positive. *)
Lemma counters_records_named (oc oi : range_order) (s : store) (k : string) :
  named k (counters_records oc oi s)
  = match counters s !! k with
    | Some v => [(k, VFloat v)]
    | None => match countInactivity s !! k with
              | Some c => if 0 <? c then [(k, VZero)] else []
              | None => []
              end
    end.
Proof.
  unfold counters_records.
  rewrite named_app, (named_fmap counter_record) by done.
  rewrite named_zero_records, !filter_key_visit, reset_inactivity_lookup.
  destruct (counters s !! k) as [v|]; [done|]. cbn [fmap list_fmap app].
  destruct (countInactivity s !! k) as [c|]; [|done].
  rewrite omap_zero_record_cons. by destruct (0 <? c).
Qed.

Lemma counters_flushed_inactivity (cfg : config) (s : store) (k : string) :
  countInactivity (counters_flushed cfg s) !! k = reset_inactivity s !! k ≫= age cfg.
Proof. apply lookup_omap. Qed.

Lemma wrap64_small (z : Z) : - 2 ^ 63 ≤ z < 2 ^ 63 → wrap64 z = z.
Proof.
  intros Hz. unfold wrap64. rewrite Z.mod_small; lia.
Qed.

(** ** Flush cycles without new data *)

Lemma graphite_cycle_spec (cfg : config) (o : orders) (now : Z) (s : store) :
  graphite_cycle cfg o now s
  = (to_line now <$> counters_records (ord_counters o) (ord_inactive o) s,
     counters_flushed cfg s).
Proof.
  unfold graphite_cycle. by rewrite graphite_processCounters_spec.
Qed.

Lemma falcon_cycle_spec (cfg : config) (o : orders) (now : Z) (s : store) :
  falcon_cycle cfg o now s
  = (to_packet cfg now <$> counters_records (ord_counters o) (ord_inactive o) s,
     counters_flushed cfg s).
Proof.
  unfold falcon_cycle. by rewrite falcon_processCounters_spec.
Qed.

Lemma graphite_run_spec (cfg : config) (os : nat → orders) (now : nat → Z)
    (n : nat) (s : store) :
  graphite_run cfg os now n s = Nat.iter n (counters_flushed cfg) s.
Proof.
  induction n as [|n IH]; [done|].
  cbn [graphite_run Nat.iter nat_rect]. by rewrite graphite_cycle_spec, IH.
Qed.

Lemma falcon_run_spec (cfg : config) (os : nat → orders) (now : nat → Z)
    (n : nat) (s : store) :
  falcon_run cfg os now n s = Nat.iter n (counters_flushed cfg) s.
Proof.
  induction n as [|n IH]; [done|].
  cbn [falcon_run Nat.iter nat_rect]. by rewrite falcon_cycle_spec, IH.
Qed.

(** After the flush that emitted the value of [k] and [j] further cycles,
    the inactivity count of [k] is [j + 1], until it passes the threshold. *)
Lemma idle_inactivity (cfg : config) (s : store) (k : string) (v : float) (j : nat) :
  0 ≤ persistCountKeys cfg < 2 ^ 63 - 1 →
  counters s !! k = Some v →
  let sj := Nat.iter (S j) (counters_flushed cfg) s in
  counters sj = ∅
  ∧ countInactivity sj !! k
    = if Z.of_nat j <? persistCountKeys cfg then Some (Z.of_nat j + 1) else None.
Proof.
  intros HN Hk. induction j as [|j [IHc IHi]].
  - cbn [Nat.iter nat_rect]. split; [done|].
    rewrite counters_flushed_inactivity, reset_inactivity_lookup, Hk.
    cbn [mbind option_bind]. unfold age. change (wrap64 (0 + 1)) with 1.
    change (Z.of_nat 0) with 0.
    destruct (Z.ltb_spec 0 (persistCountKeys cfg));
      destruct (Z.ltb_spec (persistCountKeys cfg) 1); try done; lia.
  - cbn zeta in *. set (sj := Nat.iter (S j) (counters_flushed cfg) s) in *.
    change (Nat.iter (S (S j)) (counters_flushed cfg) s)
      with (counters_flushed cfg sj).
    split; [done|].
    rewrite counters_flushed_inactivity, reset_inactivity_lookup, IHc, lookup_empty, IHi.
    destruct (Z.ltb_spec (Z.of_nat j) (persistCountKeys cfg)) as [Hj|Hj].
    + cbn [mbind option_bind]. unfold age. rewrite wrap64_small by lia.
      destruct (Z.ltb_spec (Z.of_nat (S j)) (persistCountKeys cfg));
        destruct (Z.ltb_spec (persistCountKeys cfg) (Z.of_nat j + 1 + 1));
        try lia; [f_equal; lia | done].
    + cbn [mbind option_bind].
      destruct (Z.ltb_spec (Z.of_nat (S j)) (persistCountKeys cfg)); [lia | done].
Qed.

(** ** Splitting a metric name at its last slash *)

Lemma substring_0_0 (s : string) : String.substring 0 0 s = "".
Proof. by destruct s. Qed.

Lemma substring_0_all (s : string) : String.substring 0 (String.length s) s = s.
Proof.
  induction s as [|a s IH]; [done|]. cbn. by rewrite IH.
Qed.

Lemma substring_app_l (name rest : string) :
  String.substring 0 (String.length name) (name +:+ rest) = name.
Proof.
  induction name as [|a name IH]; simpl.
  - apply substring_0_0.
  - f_equal. exact IH.
Qed.

Lemma substring_app_r (name rest : string) (n : nat) :
  String.substring (String.length name) n (name +:+ rest) = String.substring 0 n rest.
Proof.
  induction name as [|a name IH]; simpl; [done | exact IH].
Qed.

Lemma length_app_string (s t : string) :
  String.length (s +:+ t) = (String.length s + String.length t)%nat.
Proof.
  induction s as [|a s IH]; simpl; [done | by rewrite IH].
Qed.

Lemma append_slash (name tags : string) :
  (name +:+ String slash "") +:+ tags = name +:+ String slash tags.
Proof.
  induction name as [|a name IH]; [done|].
  change (String a ((name +:+ String slash "") +:+ tags)
          = String a (name +:+ String slash tags)).
  by rewrite IH.
Qed.

Lemma str_take_app (name rest : string) :
  str_take (len name) (name +:+ rest) = name.
Proof.
  unfold str_take, len. rewrite Nat2Z.id. apply substring_app_l.
Qed.

Lemma str_drop_app (name tags : string) :
  str_drop (len name + 1) (name +:+ String slash tags) = tags.
Proof.
  unfold str_drop, len.
  replace (Z.to_nat (Z.of_nat (String.length name) + 1))
    with (String.length (name +:+ String slash ""))
    by (rewrite length_app_string; simpl; lia).
  replace (name +:+ String slash tags) with ((name +:+ String slash "") +:+ tags).
  2:{ apply append_slash. }
  rewrite substring_app_r, length_app_string.
  replace (String.length (name +:+ String slash "") + String.length tags
           - String.length (name +:+ String slash ""))%nat
    with (String.length tags) by lia.
  apply substring_0_all.
Qed.

Lemma prefix_slash (s : string) : String.prefix "/" (String slash s) = true.
Proof. cbn. by destruct s. Qed.

Lemma prefix_slash_other (a : Ascii.ascii) (s : string) :
  Ascii.eqb a slash = false → String.prefix "/" (String a s) = false.
Proof.
  intros Ha.
  change (String.prefix "/" (String a s))
    with (if Ascii.ascii_dec slash a then String.prefix "" s else false).
  destruct (Ascii.ascii_dec slash a) as [<-|]; [|done].
  by rewrite Ascii.eqb_refl in Ha.
Qed.

Lemma LastIndex_no_slash (s : string) :
  contains_byte slash s = false → LastIndex s "/" = -1.
Proof.
  induction s as [|a s IH]; [done|]. cbn [contains_byte LastIndex].
  destruct (Ascii.eqb a slash) eqn:Ha; [done|]. intros Hs.
  rewrite (IH Hs). cbn [Z.leb Z.compare]. by rewrite prefix_slash_other.
Qed.

Lemma LastIndex_last_slash (name tags : string) :
  contains_byte slash tags = false →
  LastIndex (name +:+ String slash tags) "/" = len name.
Proof.
  intros Ht. induction name as [|a name IH].
  - change ("" +:+ String slash tags) with (String slash tags).
    cbn [LastIndex]. rewrite (LastIndex_no_slash tags Ht).
    cbn [Z.leb Z.compare]. by rewrite prefix_slash.
  - change (String a name +:+ String slash tags)
      with (String a (name +:+ String slash tags)).
    cbn [LastIndex]. rewrite IH. unfold len. cbn [String.length].
    destruct (Z.leb_spec 0 (Z.of_nat (String.length name))); lia.
Qed.

Lemma split_last_slash (s : string) :
  contains_byte slash s = true →
  ∃ name tags, s = name +:+ String slash tags ∧ contains_byte slash tags = false.
Proof.
  induction s as [|a s IH]; [done|]. cbn [contains_byte].
  destruct (contains_byte slash s) eqn:Hs.
  - intros _. destruct (IH eq_refl) as (name & tags & -> & Ht).
    by exists (String a name), tags.
  - destruct (Ascii.eqb a slash) eqn:Ha; [|done]. intros _.
    apply Ascii.eqb_eq in Ha as ->. by exists "", s.
Qed.

Lemma parseMetric_slash (name tags : string) :
  contains_byte slash tags = false →
  OpenFalcon.parseMetric (name +:+ String slash tags) = (name, tags).
Proof.
  intros Ht. unfold OpenFalcon.parseMetric. rewrite (LastIndex_last_slash _ _ Ht).
  rewrite str_take_app, str_drop_app.
  unfold len. by destruct (Z.leb_spec 0 (Z.of_nat (String.length name))); [|lia].
Qed.

Lemma parseMetric_no_slash (metric : string) :
  contains_byte slash metric = false → OpenFalcon.parseMetric metric = (metric, "").
Proof.
  intros Hm. unfold OpenFalcon.parseMetric. by rewrite (LastIndex_no_slash _ Hm).
Qed.

Lemma len_app (s t : string) : len (s +:+ t) = len s + len t.
Proof.
  unfold len. rewrite length_app_string. lia.
Qed.

(** The two slices of [parseMetric] are in range whenever they are taken. *)
Lemma parseMetric_in_range (metric : string) :
  let index := LastIndex metric "/" in
  0 ≤ index →
  slice_to metric index = Ok (str_take index metric)
  ∧ slice_from metric (index + 1) = Ok (str_drop (index + 1) metric).
Proof.
  cbn zeta. destruct (contains_byte slash metric) eqn:Hm.
  - destruct (split_last_slash _ Hm) as (name & tags & -> & Ht).
    rewrite (LastIndex_last_slash _ _ Ht). intros _.
    unfold slice_to, slice_from. rewrite len_app.
    assert (len (String slash tags) = 1 + len tags) as -> by (unfold len; cbn; lia).
    assert (0 ≤ len name ∧ 0 ≤ len tags) as [? ?] by (unfold len; lia).
    destruct (Z.leb_spec 0 (len name)); [|lia].
    destruct (Z.leb_spec (len name) (len name + (1 + len tags))); [|lia].
    destruct (Z.leb_spec 0 (len name + 1)); [|lia].
    by destruct (Z.leb_spec (len name + 1) (len name + (1 + len tags))); [|lia].
  - rewrite (LastIndex_no_slash _ Hm). lia.
Qed.

(** ** float64 facts: adding to zero, dividing by one *)

Lemma Prim2SF_one : Prim2SF 1%float = SF_one.
Proof. reflexivity. Qed.

Lemma Prim2SF_zero : Prim2SF 0%float = S754_zero false.
Proof. reflexivity. Qed.

Lemma finite_canonical (m : positive) (e : Z) :
  valid_binary (S754_finite false m e) = true →
  Z.max (Z.pos (digits2_pos m) + e - 53) (-1074) = e ∧ e ≤ 971.
Proof.
  unfold SpecFloat.valid_binary, bounded, canonical_mantissa, fexp, SpecFloat.emin,
    prec, emax.
  intros [H1 H2]%andb_true_iff. apply Z.eqb_eq in H1. apply Z.leb_le in H2.
  split; [exact H1 | exact H2].
Qed.

(** Rounding a mantissa that is already canonical leaves it as it is. *)
Lemma round_canonical (sx : bool) (m : positive) (e : Z) :
  Z.max (Z.pos (digits2_pos m) + e - 53) (-1074) = e → e ≤ 971 →
  binary_round_aux prec emax sx (Z.pos m) e loc_Exact = S754_finite sx m e.
Proof.
  intros H1 H2.
  assert (shr_fexp prec emax (Z.pos m) e loc_Exact
          = ({| shr_m := Z.pos m; shr_r := false; shr_s := false |}, e)) as Hs.
  { unfold shr_fexp, fexp, SpecFloat.emin, prec, emax.
    cbn [Zdigits2 shr_record_of_loc]. change (3 - 1024 - 53) with (-1074).
    rewrite H1, Z.sub_diag. reflexivity. }
  unfold binary_round_aux. rewrite Hs.
  cbn [shr_m loc_of_shr_record round_nearest_even]. rewrite Hs. cbn [shr_m].
  unfold prec, emax. change (1024 - 53) with 971.
  by rewrite (proj2 (Z.leb_le e 971) H2).
Qed.

(** The same mantissa with one more low zero bit, one exponent lower. *)
Lemma round_doubled (sx : bool) (m : positive) (e : Z) :
  Z.max (Z.pos (digits2_pos m) + e - 53) (-1074) = e → e ≤ 971 →
  binary_round_aux prec emax sx (Z.pos m~0) (e - 1) loc_Exact = S754_finite sx m e.
Proof.
  intros H1 H2.
  assert (shr_fexp prec emax (Z.pos m~0) (e - 1) loc_Exact
          = ({| shr_m := Z.pos m; shr_r := false; shr_s := false |}, e)) as Hs.
  { unfold shr_fexp, fexp, SpecFloat.emin, prec, emax.
    cbn [Zdigits2 digits2_pos shr_record_of_loc]. change (3 - 1024 - 53) with (-1074).
    replace (Z.max (Z.pos (Pos.succ (digits2_pos m)) + (e - 1) - 53) (-1074) - (e - 1))
      with 1 by lia.
    cbn [shr SpecFloat.iter_pos shr_1 orb]. f_equal. lia. }
  assert (shr_fexp prec emax (Z.pos m) e loc_Exact
          = ({| shr_m := Z.pos m; shr_r := false; shr_s := false |}, e)) as Hs'.
  { unfold shr_fexp, fexp, SpecFloat.emin, prec, emax.
    cbn [Zdigits2 shr_record_of_loc]. change (3 - 1024 - 53) with (-1074).
    rewrite H1, Z.sub_diag. reflexivity. }
  unfold binary_round_aux. rewrite Hs.
  cbn [shr_m loc_of_shr_record round_nearest_even]. rewrite Hs'. cbn [shr_m].
  unfold prec, emax. change (1024 - 53) with 971.
  by rewrite (proj2 (Z.leb_le e 971) H2).
Qed.

Lemma div_eucl_shift (m : positive) (n : Z) :
  52 ≤ n →
  Z.div_eucl (Z.shiftl (Z.pos m) n) 4503599627370496
  = (Z.pos m * 2 ^ (n - 52), 0).
Proof.
  intros Hn. rewrite Z.shiftl_mul_pow2 by lia.
  assert (Z.pos m * 2 ^ n = Z.pos m * 2 ^ (n - 52) * 4503599627370496) as ->.
  { change 4503599627370496 with (2 ^ 52). rewrite <- Z.mul_assoc, <- Z.pow_add_r by lia.
    do 2 f_equal. lia. }
  pose proof (Z_div_mod_full (Z.pos m * 2 ^ (n - 52) * 4503599627370496)
                4503599627370496) as Hdm.
  unfold Z.div, Z.modulo.
  pose proof (Z_div_mult_full (Z.pos m * 2 ^ (n - 52)) 4503599627370496) as Hq.
  pose proof (Z_mod_mult (Z.pos m * 2 ^ (n - 52)) 4503599627370496) as Hr.
  unfold Z.div, Z.modulo in Hq, Hr.
  destruct (Z.div_eucl _ _) as [q r]. cbn in Hq, Hr. rewrite Hq, Hr by lia. done.
Qed.

Lemma SFdiv_one (s : spec_float) :
  valid_binary s = true → SF64div s SF_one = s.
Proof.
  destruct s as [sx|sx| |sx m e]; intros Hv; cbn; rewrite ?xorb_false_r; try done.
  assert (valid_binary (S754_finite false m e) = true) as Hv' by exact Hv.
  apply finite_canonical in Hv' as [H1 H2].
  unfold SFdiv_core_binary, fexp, SpecFloat.emin, prec, emax.
  change (Zdigits2 4503599627370496) with 53. cbn [Zdigits2].
  change (3 - 1024 - 53) with (-1074).
  destruct (decide (e = -1074)) as [He|He].
  - replace (Z.min (Z.max (Z.pos (digits2_pos m) + e - (53 + -52) - 53) (-1074))
               (e - -52)) with e by lia.
    replace (e - -52 - e) with 52 by lia.
    rewrite div_eucl_shift by lia. change (2 ^ (52 - 52)) with 1. rewrite Z.mul_1_r.
    change (new_location 4503599627370496 0) with loc_Exact.
    by apply round_canonical.
  - replace (Z.min (Z.max (Z.pos (digits2_pos m) + e - (53 + -52) - 53) (-1074))
               (e - -52)) with (e - 1) by lia.
    replace (e - -52 - (e - 1)) with 53 by lia.
    rewrite div_eucl_shift by lia. change (2 ^ (53 - 52)) with 2.
    change (new_location 4503599627370496 0) with loc_Exact.
    replace (Z.pos m * 2) with (Z.pos m~0) by lia.
    by apply round_doubled.
Qed.

(** [x / 1 = x], for every float64. *)
Lemma float_div_one (x : float) : (x / 1)%float = x.
Proof.
  apply Prim2SF_inj. rewrite div_spec, Prim2SF_one.
  apply SFdiv_one, Prim2SF_valid.
Qed.

(** [0 + x = x], except that [0 + (-0)] is [+0]. *)
Lemma float_zero_add (x : float) :
  (0 + x)%float = if PrimFloat.eqb x 0 then 0%float else x.
Proof.
  pose proof (FloatAxioms.eqb_spec x 0) as He. rewrite Prim2SF_zero in He. rewrite He.
  apply Prim2SF_inj. rewrite add_spec, Prim2SF_zero.
  destruct (Prim2SF x) as [[]|[]| |[] m e] eqn:Hx; cbn; by rewrite ?Hx.
Qed.

(** ** One timer bucket *)

Lemma to_line_inj (now : Z) (rs rs' : list record) :
  to_line now <$> rs = to_line now <$> rs' → rs = rs'.
Proof.
  revert rs'. induction rs as [|[n v] rs IH]; intros [|[n' v'] rs']; try done.
  rewrite !fmap_cons. intros [= -> -> Hrs]. f_equal. by apply IH.
Qed.

Lemma bucket_emits_iff (cfg : config) (now : Z) (pctls : list Percentile)
    (e : string * list float) (rs : list record) :
  bucket_emits cfg now pctls e rs ↔ timer_records cfg pctls e = Ok rs.
Proof.
  unfold bucket_emits. split.
  - intros [Hg _]. specialize (Hg [] 0 empty_store).
    rewrite graphite_timers_body_spec in Hg.
    destruct (timer_records cfg pctls e) as [rs'|w]; [|done].
    cbn [mbind outcome_bind] in Hg. injection Hg as Hg.
    cbn [app] in Hg. by apply to_line_inj in Hg as ->.
  - intros Hrs. split; intros.
    + by rewrite graphite_timers_body_spec, Hrs.
    + by rewrite falcon_timers_body_spec, Hrs.
Qed.


Lemma mapM_Forall2 {A B : Type} (f : A → outcome B) (l : list A) (k : list B) :
  mapM f l = Ok k → Forall2 (λ a b, f a = Ok b) l k.
Proof.
  revert k. induction l as [|a l IH]; intros k; cbn [mapM].
  - intros [= <-]. constructor.
  - destruct (f a) as [b|w] eqn:Hb; [|done]. cbn [mbind outcome_bind].
    destruct (mapM f l) as [k'|w]; [|done]. cbn [mbind outcome_bind].
    intros [= <-]. constructor; [done | by apply IH].
Qed.

Lemma sort_insert_length (x : float) (l : list float) :
  length (sort_insert x l) = S (length l).
Proof.
  induction l as [|y l IH]; [done|]. cbn [sort_insert].
  destruct (PrimFloat.ltb y x); cbn [length]; by rewrite ?IH.
Qed.

Lemma sort_floats_length (l : list float) : length (sort_floats l) = length l.
Proof.
  induction l as [|x l IH]; [done|].
  change (sort_floats (x :: l)) with (sort_insert x (sort_floats l)).
  by rewrite sort_insert_length, IH.
Qed.

Lemma index_Ok {A : Type} (l : list A) (i : Z) (a : A) :
  index l i = Ok a ↔ 0 ≤ i < Z.of_nat (length l) ∧ l !! Z.to_nat i = Some a.
Proof.
  unfold index.
  destruct (Z.leb_spec 0 i); destruct (Z.ltb_spec i (Z.of_nat (length l)));
    cbn [andb]; try (split; [done | lia]).
  destruct (l !! Z.to_nat i) as [a'|] eqn:Hl.
  - split; [intros [= ->]; by split | by intros [_ [= ->]]].
  - split; [done | by intros [_ ?]].
Qed.

Lemma int_floor_range (x : float) (n : Z) :
  int_floor x = Ok n → - 2 ^ 63 ≤ n < 2 ^ 63.
Proof.
  unfold int_floor, in_int64. destruct (Prim2SF x) as [| | |sg m e]; try done.
  - intros [= <-]. lia.
  - cbn zeta. destruct (Z.leb_spec (- 2 ^ 63) (Z.shiftl (if sg then Z.neg m else Z.pos m) e));
      destruct (Z.ltb_spec (Z.shiftl (if sg then Z.neg m else Z.pos m) e) (2 ^ 63));
      cbn [andb]; try done.
    by intros [= <-].
Qed.


Lemma slice_to_spec (s : string) (hi : Z) :
  slice_to s hi
  = if (0 <=? hi) && (hi <=? len s) then Ok (str_take hi s)
    else Panic SliceOutOfRange.
Proof. done. Qed.


(** The threshold records of a bucket with one sample. *)
Lemma pct_records_single (cfg : config) (stem : string) (v : float)
    (pctls : list Percentile) :
  mapM (pct_record cfg stem [v] v) pctls
  = (names ← mapM (pct_name cfg stem) pctls;
     Ok ((λ name, (name, VFloat v)) <$> names)).
Proof.
  induction pctls as [|pct pctls IH]; [done|]. cbn [mapM]. rewrite IH.
  unfold pct_record at 1. rewrite threshold_single by done.
  cbn [mbind outcome_bind]. destruct (pct_name cfg stem pct) as [name|w]; [|done].
  cbn [mbind outcome_bind]. by destruct (mapM (pct_name cfg stem) pctls).
Qed.

Lemma float_eqb_zero_sym (v : float) :
  PrimFloat.eqb v 0 = true → PrimFloat.eqb 0 v = true.
Proof.
  rewrite !FloatAxioms.eqb_spec, Prim2SF_zero.
  by destruct (Prim2SF v) as [[]|[]| |[] m e].
Qed.

Lemma mean_of_single (v : float) :
  mean_of [v] = if PrimFloat.eqb v 0 then 0%float else v.
Proof.
  unfold mean_of, sum_of. cbn [foldl length].
  change (float64_of_int (Z.of_nat 1)) with 1%float.
  by rewrite float_div_one, float_zero_add.
Qed.

Lemma mean_of_single_same (v : float) : same_number (mean_of [v]) v.
Proof.
  rewrite mean_of_single. unfold same_number.
  destruct (PrimFloat.eqb v 0) eqn:Hv; [right|by left].
  by apply float_eqb_zero_sym.
Qed.

(** ** Gauges and sets *)

Lemma gauges_records_named (o : range_order) (s : store) (k : string) :
  named k (gauges_records o s)
  = match gauges s !! k with Some v => [(k, VFloat v)] | None => [] end.
Proof.
  unfold gauges_records. rewrite (named_fmap counter_record) by done.
  rewrite filter_key_visit. by destruct (gauges s !! k).
Qed.

Lemma sets_records_named (o : range_order) (s : store) (k : string) :
  named k (sets_records o s)
  = match sets s !! k with
    | Some set => [(k, VInt (uniqueCount set))]
    | None => []
    end.
Proof.
  unfold sets_records. rewrite (named_fmap set_record) by done.
  rewrite filter_key_visit. by destruct (sets s !! k).
Qed.

Lemma gauges_flushed_twice (cfg : config) (s : store) :
  gauges_flushed cfg (gauges_flushed cfg s) = gauges_flushed cfg s.
Proof.
  unfold gauges_flushed. by destruct (deleteGauges cfg).
Qed.

Lemma graphite_gauge_run_spec (cfg : config) (os : nat → orders) (now : nat → Z)
    (n : nat) (s : store) :
  graphite_gauge_run cfg os now n s
  = match n with O => s | S _ => gauges_flushed cfg s end.
Proof.
  induction n as [|n IH]; [done|].
  cbn [graphite_gauge_run]. rewrite graphite_processGauges_spec, IH. cbn [snd].
  destruct n; [done | apply gauges_flushed_twice].
Qed.

Lemma falcon_gauge_run_spec (cfg : config) (os : nat → orders) (now : nat → Z)
    (n : nat) (s : store) :
  falcon_gauge_run cfg os now n s
  = match n with O => s | S _ => gauges_flushed cfg s end.
Proof.
  induction n as [|n IH]; [done|].
  cbn [falcon_gauge_run]. rewrite falcon_processGauges_spec, IH. cbn [snd].
  destruct n; [done | apply gauges_flushed_twice].
Qed.

Lemma uniqueSet_dom (set : list string) (u : gmap string bool) :
  dom (foldl (λ u str, <[str := true]> u) u set) = dom u ∪ list_to_set set.
Proof.
  revert u. induction set as [|str set IH]; intros u.
  - cbn [foldl list_to_set]. by rewrite (right_id_L ∅ (∪)).
  - cbn [foldl list_to_set]. rewrite IH, dom_insert_L.
    by rewrite (comm_L (∪) {[str]}), (assoc_L (∪)).
Qed.

(** [len(uniqueSet)] is the number of distinct members. *)
Lemma uniqueCount_distinct (set : list string) :
  uniqueCount set = Z.of_nat (size (list_to_set set : gset string)).
Proof.
  unfold uniqueCount, uniqueSet. rewrite <- size_dom, uniqueSet_dom, dom_empty_L.
  by rewrite (left_id_L ∅ (∪)).
Qed.

(** * The claims *)

(** ** C1: the percentile threshold *)

Lemma float_neq (x y : float) : Prim2SF x ≠ Prim2SF y → x ≠ y.
Proof. intros H ->. by apply H. Qed.

(** C1, as the code has it.  For a timer bucket with more than one sample,
    both backends emit for each percentile spec, in order, the record whose
    value is [samples[index]], where [samples] are the sorted samples,
    [abs] is the magnitude for an upper-tail spec and [100 + magnitude] for
    a lower-tail one, and [index = floor(abs/100 * count + 0.5)], minus 1
    only when the tail is upper.  In particular, for the samples 1..5 the
    spec "upper 50" yields index 2 and threshold 3, and the spec "lower 50"
    (magnitude -50) yields index 3 and threshold 4. *)
Theorem C1_percentile_threshold :
  (∀ (cfg : config) (now : Z) (pctls : list Percentile) (bucket : string)
     (timer : list float) (rs : list record),
     (1 < length timer)%nat →
     Z.of_nat (length timer) < 2 ^ 63 →
     bucket_emits cfg now pctls (bucket, timer) rs →
     let samples := sort_floats timer in
     let count := Z.of_nat (length timer) in
     Forall2
       (λ pct r,
          let upper := (0 <=? pct_float pct)%float in
          let abs := if upper then pct_float pct else (100 + pct_float pct)%float in
          ∃ (n : Z) (t : float),
            int_floor (abs / 100 * float64_of_int count + 0.5)%float = Ok n
            ∧ let index := if upper then n - 1 else n in
              0 ≤ index < count
              ∧ samples !! Z.to_nat index = Some t
              ∧ r.2 = VFloat t)
       pctls (take (length pctls) rs))
  ∧ indexOfPerc upper_50 5 = Ok 2
  ∧ indexOfPerc lower_50 5 = Ok 3
  ∧ ∀ now : Z,
      bucket_emits example_config now [upper_50; lower_50] ("t", five_samples)
        [ ("t.upper_50", VFloat 3); ("t.lower_50", VFloat 4);
          ("t.mean", VFloat 3); ("t.upper", VFloat 5); ("t.lower", VFloat 1);
          ("t.count", VInt 5) ].
Proof.
  split; [|split; [|split]].
  - intros cfg now pctls bucket timer rs Hlen Hint Hrs samples count.
    apply bucket_emits_iff in Hrs. unfold timer_records in Hrs. cbn [fst snd] in Hrs.
    fold samples in Hrs.
    destruct (slice_to _ _) as [stem|w]; [|done]. cbn [mbind outcome_bind] in Hrs.
    destruct (index samples 0) as [min|w]; [|done]. cbn [mbind outcome_bind] in Hrs.
    destruct (index samples _) as [max|w]; [|done]. cbn [mbind outcome_bind] in Hrs.
    destruct (mapM _ pctls) as [ps|w] eqn:Hps; [|done].
    cbn [mbind outcome_bind] in Hrs. injection Hrs as <-.
    rewrite <- (mapM_length _ _ _ Hps), take_app_length.
    apply mapM_Forall2 in Hps.
    assert (length samples = length timer) as Hs by apply sort_floats_length.
    eapply Forall2_impl; [exact Hps|]. intros pct [name v] Hr. cbn zeta.
    unfold pct_record, threshold, indexOfPerc in Hr. rewrite Hs in Hr. fold count in Hr.
    destruct (Z.ltb_spec 1 count) as [_|Hc]; [|unfold count in Hc; lia].
    destruct (int_floor _) as [n|w] eqn:Hn; [|done].
    cbn [mbind outcome_bind] in Hr.
    destruct (index samples _) as [t|w] eqn:Ht; [|done].
    cbn [mbind outcome_bind] in Hr.
    destruct (pct_name cfg stem pct) as [name'|w]; [|done].
    cbn [mbind outcome_bind] in Hr. injection Hr as <- <-.
    apply index_Ok in Ht as [Hi Ht]. rewrite Hs in Hi. fold count in Hi.
    apply int_floor_range in Hn as Hrange.
    exists n, t. split; [done|].
    destruct (0 <=? pct_float pct)%float; [|done].
    assert (wrap64 (n - 1) = n - 1) as Hw.
    { destruct (decide (n = - 2 ^ 63)) as [->|Hne]; [|apply wrap64_small; lia].
      exfalso. change (wrap64 (- 2 ^ 63 - 1)) with (2 ^ 63 - 1) in Hi.
      unfold count in Hi. lia. }
    rewrite Hw in Hi, Ht. done.
  - reflexivity.
  - reflexivity.
  - intros now. apply bucket_emits_iff. vm_compute. reflexivity.
Qed.

(** C1, witness: the general rule applied to the samples 1..5 with the
    specs "upper 50" and "lower 50". *)
Lemma C1_percentile_threshold_witness :
  let rs := [ ("t.upper_50", VFloat 3%float); ("t.lower_50", VFloat 4%float);
              ("t.mean", VFloat 3%float); ("t.upper", VFloat 5%float);
              ("t.lower", VFloat 1%float); ("t.count", VInt 5) ] in
  bucket_emits example_config 0 [upper_50; lower_50] ("t", five_samples) rs
  ∧ Forall2
      (λ pct r,
         let upper := (0 <=? pct_float pct)%float in
         let abs := if upper then pct_float pct else (100 + pct_float pct)%float in
         ∃ (n : Z) (t : float),
           int_floor (abs / 100 * float64_of_int 5 + 0.5)%float = Ok n
           ∧ let index := if upper then n - 1 else n in
             0 ≤ index < 5
             ∧ sort_floats five_samples !! Z.to_nat index = Some t
             ∧ r.2 = VFloat t)
      [upper_50; lower_50] (take 2 rs).
Proof.
  intros rs.
  assert (bucket_emits example_config 0 [upper_50; lower_50] ("t", five_samples) rs)
    as Hrs by (apply bucket_emits_iff; vm_compute; reflexivity).
  split; [exact Hrs|].
  apply (proj1 C1_percentile_threshold example_config 0 [upper_50; lower_50]
           "t" five_samples rs); [vm_compute; lia | vm_compute; reflexivity | exact Hrs].
Defined.

(** C1, counterexample: on the samples 1..5 the spec "lower 50" does not
    yield index 2 and threshold 3; the code computes index 3 and emits 4. *)
Lemma C1_lower_50_counterexample :
  indexOfPerc lower_50 5 = Ok 3
  ∧ indexOfPerc lower_50 5 ≠ Ok 2
  ∧ threshold (sort_floats five_samples) 5%float lower_50 = Ok 4%float
  ∧ threshold (sort_floats five_samples) 5%float lower_50 ≠ Ok 3%float
  ∧ Graphite.processTimers example_config canonical_order [] 0 [lower_50]
      (set_timers (λ _, {[ "t" := five_samples ]}) empty_store)
    = Ok ([ Graphite.Line "t.lower_50" (VFloat 4) 0; Graphite.Line "t.mean" (VFloat 3) 0;
            Graphite.Line "t.upper" (VFloat 5) 0; Graphite.Line "t.lower" (VFloat 1) 0;
            Graphite.Line "t.count" (VInt 5) 0 ], 1, empty_store).
Proof.
  assert (indexOfPerc lower_50 5 = Ok 3) as Hi by reflexivity.
  assert (threshold (sort_floats five_samples) 5%float lower_50 = Ok 4%float)
    as Ht by reflexivity.
  split; [exact Hi|]. split; [by rewrite Hi|]. split; [exact Ht|]. split.
  - rewrite Ht. intros H.
    assert (4%float = 3%float) as H' by congruence.
    by apply (float_neq 4 3) in H'.
  - vm_compute. reflexivity.
Qed.

(** ** C2: zero-fill and purge *)

(** C2.  Let the flush cycle 0 emit the value of the counter [k], and let no
    data arrive afterwards.  Then, with [N] the persistence threshold, each
    of the cycles 1..N emits exactly one record for [k], a zero, and every
    later cycle emits none; after cycle [j] the inactivity count of [k] is
    [j + 1] while [j < N], and from cycle [N] on [k] is absent from the
    inactivity map.  Both backends agree. *)
Theorem C2_zero_fill (cfg : config) (os : nat → orders) (now : nat → Z)
    (s : store) (k : string) (v : float) :
  0 ≤ persistCountKeys cfg < 2 ^ 63 - 1 →
  counters s !! k = Some v →
  (∀ j : nat, (1 ≤ j)%nat →
     ∃ rs : list record,
       (graphite_cycle cfg (os j) (now j) (graphite_run cfg os now j s)).1
       = to_line (now j) <$> rs
       ∧ (falcon_cycle cfg (os j) (now j) (falcon_run cfg os now j s)).1
         = to_packet cfg (now j) <$> rs
       ∧ named k rs
         = if Z.of_nat j <=? persistCountKeys cfg then [(k, VZero)] else [])
  ∧ (∀ j : nat,
       countInactivity (graphite_run cfg os now (S j) s) !! k
       = (if Z.of_nat j <? persistCountKeys cfg then Some (Z.of_nat j + 1) else None)
       ∧ countInactivity (falcon_run cfg os now (S j) s) !! k
         = (if Z.of_nat j <? persistCountKeys cfg then Some (Z.of_nat j + 1) else None)).
Proof.
  intros HN Hk. split.
  - intros [|j] Hj; [lia|].
    rewrite graphite_run_spec, falcon_run_spec, graphite_cycle_spec, falcon_cycle_spec.
    destruct (idle_inactivity cfg s k v j HN Hk) as [Hc Hi]. cbn zeta in Hc, Hi.
    eexists. split; [reflexivity|]. split; [reflexivity|].
    rewrite counters_records_named, Hc, lookup_empty, Hi.
    destruct (Z.ltb_spec (Z.of_nat j) (persistCountKeys cfg));
      destruct (Z.leb_spec (Z.of_nat (S j)) (persistCountKeys cfg)); try lia; [|done].
    by destruct (Z.ltb_spec 0 (Z.of_nat j + 1)); [|lia].
  - intros j. rewrite graphite_run_spec, falcon_run_spec.
    destruct (idle_inactivity cfg s k v j HN Hk) as [_ Hi]. by split.
Qed.

(** C2, witness: the counter "hits" = 5 with the threshold 2, at the
    cycles 1, 2 and 3. *)
Lemma C2_zero_fill_witness :
  let cfg := {| debug := false; deleteGauges := true; persistCountKeys := 2;
                postfix := ""; percentThreshold := []; flushInterval := 10;
                graphiteAddress := "" |} in
  let os := λ _ : nat, canonical_orders in
  let now := λ j : nat, Z.of_nat j in
  (graphite_cycle cfg (os 1%nat) (now 1%nat) (graphite_run cfg os now 1 hits_store)).1
  = [Graphite.Line "hits" VZero 1]
  ∧ (graphite_cycle cfg (os 2%nat) (now 2%nat) (graphite_run cfg os now 2 hits_store)).1
    = [Graphite.Line "hits" VZero 2]
  ∧ (graphite_cycle cfg (os 3%nat) (now 3%nat) (graphite_run cfg os now 3 hits_store)).1
    = []
  ∧ ((∀ j : nat, (1 ≤ j)%nat →
        ∃ rs : list record,
          (graphite_cycle cfg (os j) (now j) (graphite_run cfg os now j hits_store)).1
          = to_line (now j) <$> rs
          ∧ (falcon_cycle cfg (os j) (now j) (falcon_run cfg os now j hits_store)).1
            = to_packet cfg (now j) <$> rs
          ∧ named "hits" rs
            = if Z.of_nat j <=? persistCountKeys cfg then [("hits", VZero)] else [])
     ∧ (∀ j : nat,
          countInactivity (graphite_run cfg os now (S j) hits_store) !! "hits"
          = (if Z.of_nat j <? persistCountKeys cfg
             then Some (Z.of_nat j + 1) else None)
          ∧ countInactivity (falcon_run cfg os now (S j) hits_store) !! "hits"
            = (if Z.of_nat j <? persistCountKeys cfg
               then Some (Z.of_nat j + 1) else None))).
Proof.
  intros cfg os now.
  split; [vm_compute; reflexivity|]. split; [vm_compute; reflexivity|].
  split; [vm_compute; reflexivity|].
  apply (C2_zero_fill cfg os now hits_store "hits" 5%float).
  - simpl. lia.
  - vm_compute. reflexivity.
Defined.

(** ** C3: submitting when there is nothing to send *)

(** C3, as the code has it.  When the flush yields no record, the batched
    backend performs no request and returns success.  The streaming backend
    dials before it drains: it performs the connection (and sets the
    deadline) all the same, writes nothing, and returns success only when
    dialing and setting the deadline succeeded; otherwise it returns that
    failure. *)
Theorem C3_empty_flush (cfg : config) (os : orders) (now deadline : Z) (s : store) :
  flush_records cfg os s = Ok [] →
  (∀ net bd,
     OpenFalcon.packets bd = [] →
     OpenFalcon.submit cfg net os bd now deadline s
     = Ok (None, bd, flushed cfg s, []))
  ∧ (∀ net bd,
       Graphite.submit cfg net os bd now deadline s
       = Ok match Graphite.dial_err net with
            | Some err =>
                (Some ("dialing " +:+ graphiteAddress cfg +:+ " failed - " +:+ err),
                 if debug cfg then flushed cfg s else s,
                 [Graphite.Dial (Graphite.addr bd)])
            | None =>
                match Graphite.deadline_err net with
                | Some err =>
                    (Some err, s,
                     [Graphite.Dial (Graphite.addr bd);
                      Graphite.SetDeadline deadline; Graphite.Close])
                | None =>
                    (None, flushed cfg s,
                     [Graphite.Dial (Graphite.addr bd);
                      Graphite.SetDeadline deadline; Graphite.Close])
                end
            end).
Proof.
  intros Hrs. split.
  - intros net bd Hbd. rewrite falcon_submit_spec, Hrs. cbn [mbind outcome_bind].
    rewrite Hbd. cbn. destruct bd. cbn in Hbd. by subst.
  - intros net bd. rewrite graphite_submit_spec, Hrs.
    destruct (Graphite.dial_err net); [by destruct (debug cfg)|].
    by destruct (Graphite.deadline_err net).
Qed.

(** C3, witness: the empty store. *)
Lemma C3_empty_flush_witness :
  (∀ net bd,
     OpenFalcon.packets bd = [] →
     OpenFalcon.submit example_config net canonical_orders bd 0 10 empty_store
     = Ok (None, bd, flushed example_config empty_store, []))
  ∧ (∀ net bd,
       Graphite.submit example_config net canonical_orders bd 0 10 empty_store
       = Ok match Graphite.dial_err net with
            | Some err =>
                (Some ("dialing " +:+ graphiteAddress example_config
                       +:+ " failed - " +:+ err),
                 if debug example_config then flushed example_config empty_store
                 else empty_store,
                 [Graphite.Dial (Graphite.addr bd)])
            | None =>
                match Graphite.deadline_err net with
                | Some err =>
                    (Some err, empty_store,
                     [Graphite.Dial (Graphite.addr bd);
                      Graphite.SetDeadline 10; Graphite.Close])
                | None =>
                    (None, flushed example_config empty_store,
                     [Graphite.Dial (Graphite.addr bd);
                      Graphite.SetDeadline 10; Graphite.Close])
                end
            end).
Proof.
  apply (C3_empty_flush example_config canonical_orders 0 10 empty_store).
  vm_compute. reflexivity.
Defined.

(** C3, counterexample: on the empty store the streaming backend opens a
    connection, and when the dial is refused it returns an error. *)
Lemma C3_graphite_counterexample :
  flush_records example_config canonical_orders empty_store = Ok []
  ∧ Graphite.submit example_config connected canonical_orders example_backend
      0 10 empty_store
    = Ok (None, empty_store,
          [Graphite.Dial "127.0.0.1:2003"; Graphite.SetDeadline 10; Graphite.Close])
  ∧ Graphite.submit example_config refused canonical_orders example_backend
      0 10 empty_store
    = Ok (Some "dialing 127.0.0.1:2003 failed - connection refused", empty_store,
          [Graphite.Dial "127.0.0.1:2003"]).
Proof.
  repeat split; vm_compute; reflexivity.
Qed.

(** ** C4: a timer bucket with one sample *)

Lemma float_eqb_zero (v : float) :
  PrimFloat.eqb v 0 = true → v = 0%float ∨ v = (-0)%float.
Proof.
  rewrite FloatAxioms.eqb_spec, Prim2SF_zero. intros Hv.
  rewrite <- (SF2Prim_Prim2SF v).
  destruct (Prim2SF v) as [[]|[]| |[] m e]; try done; [by right | by left].
Qed.

(** C4.  For a timer bucket holding exactly one sample [v], both backends
    emit, for every configured percentile spec, a threshold equal to [v]
    (the index computation is skipped), then mean, upper (max) = [v],
    lower (min) = [v] and count = 1.  The mean [(0 + v) / 1] is the same
    number as [v]: it is [v] itself unless [v] is the float64 negative
    zero, for which it is the positive zero.  [stem] is the key without the
    postfix and [names] are the names of the percentile records. *)
Theorem C4_single_sample (cfg : config) (now : Z) (pctls : list Percentile)
    (bucket : string) (v : float) (stem : string) (names : list string) :
  slice_to bucket (len bucket - len (postfix cfg)) = Ok stem →
  mapM (pct_name cfg stem) pctls = Ok names →
  bucket_emits cfg now pctls (bucket, [v])
    (((λ name, (name, VFloat v)) <$> names)
     ++ [ (stem +:+ ".mean" +:+ postfix cfg, VFloat (mean_of [v]));
          (stem +:+ ".upper" +:+ postfix cfg, VFloat v);
          (stem +:+ ".lower" +:+ postfix cfg, VFloat v);
          (stem +:+ ".count" +:+ postfix cfg, VInt 1) ])
  ∧ length names = length pctls
  ∧ same_number (mean_of [v]) v
  ∧ (v ≠ (-0)%float → mean_of [v] = v).
Proof.
  intros Hstem Hnames. split; [|split; [|split]].
  - apply bucket_emits_iff. unfold timer_records. cbn [fst snd].
    rewrite Hstem. cbn [mbind outcome_bind].
    change (sort_floats [v]) with [v].
    change (index [v] 0) with (Ok v).
    change (index [v] (Z.of_nat (length [v]) - 1)) with (Ok v).
    cbn [mbind outcome_bind]. rewrite pct_records_single, Hnames. done.
  - by apply mapM_length in Hnames.
  - apply mean_of_single_same.
  - intros Hv. rewrite mean_of_single.
    destruct (PrimFloat.eqb v 0) eqn:He; [|done].
    by destruct (float_eqb_zero v He) as [->| ->].
Qed.

(** C4, witness: the sample 7 under the specs "upper 50" and "lower 50". *)
Lemma C4_single_sample_witness :
  bucket_emits example_config 0 [upper_50; lower_50] ("t", [7%float])
    [ ("t.upper_50", VFloat 7); ("t.lower_50", VFloat 7);
      ("t.mean", VFloat (mean_of [7%float])); ("t.upper", VFloat 7);
      ("t.lower", VFloat 7); ("t.count", VInt 1) ]
  ∧ length ["t.upper_50"; "t.lower_50"] = length [upper_50; lower_50]
  ∧ same_number (mean_of [7%float]) 7%float
  ∧ (7%float ≠ (-0)%float → mean_of [7%float] = 7%float).
Proof.
  apply (C4_single_sample example_config 0 [upper_50; lower_50] "t" 7%float "t"
           ["t.upper_50"; "t.lower_50"]); reflexivity.
Defined.

(** ** C5: flushing a counter *)

(** C5, as the code has it.  For a key [k] holding the accumulated value
    [v] in the counters map, both backends emit exactly one record for [k],
    carrying [v]; after the flush [k] is absent from the counters map.  Its
    inactivity count is reset to 0 by the first loop and incremented by the
    second loop of the same flush: after the flush it is 1, or [k] is
    absent from the inactivity map when the persistence threshold is below
    1.  (The accumulation of [v] is done by the ingestion path in
    statsdaemon.go.) *)
Theorem C5_counter_flush (cfg : config) (oc oi : range_order) (now : Z)
    (s : store) (k : string) (v : float) :
  counters s !! k = Some v →
  ∃ (rs : list record) (s' : store),
    (∀ buffer, Graphite.processCounters cfg oc oi buffer now s
               = (buffer ++ (to_line now <$> rs), Z.of_nat (length rs), s'))
    ∧ (∀ bd, OpenFalcon.processCounters cfg oc oi bd now s
             = (push cfg now bd rs, s'))
    ∧ named k rs = [(k, VFloat v)]
    ∧ counters s' !! k = None
    ∧ countInactivity s' !! k
      = if 1 <=? persistCountKeys cfg then Some 1 else None.
Proof.
  intros Hk. exists (counters_records oc oi s), (counters_flushed cfg s).
  split; [intros; apply graphite_processCounters_spec|].
  split; [intros; apply falcon_processCounters_spec|].
  split; [by rewrite counters_records_named, Hk|].
  split; [done|].
  rewrite counters_flushed_inactivity, reset_inactivity_lookup, Hk.
  cbn [mbind option_bind]. unfold age. change (wrap64 (0 + 1)) with 1.
  destruct (Z.ltb_spec (persistCountKeys cfg) 1);
    destruct (Z.leb_spec 1 (persistCountKeys cfg)); try done; lia.
Qed.

(** C5, witness: the counter "hits" = 5 under the default flags. *)
Lemma C5_counter_flush_witness :
  ∃ (rs : list record) (s' : store),
    (∀ buffer, Graphite.processCounters example_config canonical_order
                 canonical_order buffer 0 hits_store
               = (buffer ++ (to_line 0 <$> rs), Z.of_nat (length rs), s'))
    ∧ (∀ bd, OpenFalcon.processCounters example_config canonical_order
               canonical_order bd 0 hits_store
             = (push example_config 0 bd rs, s'))
    ∧ named "hits" rs = [("hits", VFloat 5)]
    ∧ counters s' !! "hits" = None
    ∧ countInactivity s' !! "hits"
      = if 1 <=? persistCountKeys example_config then Some 1 else None.
Proof.
  apply (C5_counter_flush example_config canonical_order canonical_order 0
           hits_store "hits" 5%float).
  vm_compute. reflexivity.
Defined.

(** C5, counterexample: immediately after flushing the counter "hits" = 5
    under the default flags, its inactivity count is 1, not 0, in both
    backends. *)
Lemma C5_inactivity_counterexample :
  counters hits_store !! "hits" = Some 5%float
  ∧ countInactivity
      (Graphite.processCounters example_config canonical_order canonical_order
         [] 0 hits_store).2 !! "hits" = Some 1
  ∧ countInactivity
      (OpenFalcon.processCounters example_config canonical_order canonical_order
         (OpenFalcon.NewOpenFalconBackend "127.0.0.1:1988") 0 hits_store).2
      !! "hits" = Some 1
  ∧ Some 1 ≠ Some 0.
Proof.
  split; [vm_compute; reflexivity|]. split; [vm_compute; reflexivity|].
  split; [vm_compute; reflexivity|]. discriminate.
Qed.

(** ** C6: the streaming backend when the dial fails *)

Lemma flushed_fields (cfg : config) (s : store) :
  counters (flushed cfg s) = ∅
  ∧ gauges (flushed cfg s) = (if deleteGauges cfg then ∅ else gauges s)
  ∧ timers (flushed cfg s) = ∅
  ∧ sets (flushed cfg s) = ∅
  ∧ countInactivity (flushed cfg s) = omap (age cfg) (reset_inactivity s).
Proof.
  unfold flushed, gauges_flushed. by destruct (deleteGauges cfg).
Qed.

(** C6.  When the dial fails, [submit] performs nothing on the network but
    the dial and writes nothing.  Without debug mode it returns the error
    and leaves the store as it was.  In debug mode it runs the four
    procedures on the store (counters, timers and sets are emptied, gauges
    too under the delete-gauges option, inactivity counts are aged), drops
    the buffer, and returns the error; if the timer procedure panics, so
    does [submit]. *)
Theorem C6_dial_failure (cfg : config) (os : orders)
    (bd : Graphite.graphiteBackend) (now deadline : Z) (s : store)
    (err : string) (deadline_err write_err : option string) :
  let net := {| Graphite.dial_err := Some err;
                Graphite.deadline_err := deadline_err;
                Graphite.write_err := write_err |} in
  let failure := Some ("dialing " +:+ graphiteAddress cfg +:+ " failed - " +:+ err) in
  Graphite.submit cfg net os bd now deadline s
  = (if debug cfg then
       match timers_records cfg (ord_timers os) (percentThreshold cfg) s with
       | Ok _ => Ok (failure, flushed cfg s, [Graphite.Dial (Graphite.addr bd)])
       | Panic w => Panic w
       end
     else Ok (failure, s, [Graphite.Dial (Graphite.addr bd)]))
  ∧ counters (flushed cfg s) = ∅
  ∧ gauges (flushed cfg s) = (if deleteGauges cfg then ∅ else gauges s)
  ∧ timers (flushed cfg s) = ∅
  ∧ sets (flushed cfg s) = ∅
  ∧ (let '(_, _, s1) :=
       Graphite.processCounters cfg (ord_counters os) (ord_inactive os) [] now s in
     let '(_, _, s2) := Graphite.processGauges cfg (ord_gauges os) [] now s1 in
     '(_, _, s3) ← Graphite.processTimers cfg (ord_timers os) [] now
                     (percentThreshold cfg) s2;
     let '(_, _, s4) := Graphite.processSets (ord_sets os) [] now s3 in
     Ok s4)
    = (_ ← timers_records cfg (ord_timers os) (percentThreshold cfg) s;
       Ok (flushed cfg s)).
Proof.
  cbn zeta. destruct (flushed_fields cfg s) as (Hc & Hg & Ht & Hs & _).
  split; [|repeat split; try done].
  - rewrite graphite_submit_spec. cbn [Graphite.dial_err]. unfold flush_records.
    destruct (debug cfg); [|done].
    by destruct (timers_records cfg (ord_timers os) (percentThreshold cfg) s).
  - rewrite graphite_processCounters_spec, graphite_processGauges_spec,
      graphite_processTimers_spec.
    destruct (records_after_earlier cfg (ord_timers os) (percentThreshold cfg) s)
      as (_ & -> & _ & _).
    destruct (timers_records _ _ _ s) as [ts|w]; [|done].
    cbn [mbind outcome_bind]. by rewrite graphite_processSets_spec.
Qed.

(** C6, witness: a refused dial with a counter and a timer in the store,
    with and without debug mode. *)
Lemma C6_dial_failure_witness :
  let s := set_timers (λ _, {[ "t" := five_samples ]}) hits_store in
  let dbg := {| debug := true; deleteGauges := true; persistCountKeys := 60;
                postfix := ""; percentThreshold := [upper_50]; flushInterval := 10;
                graphiteAddress := "127.0.0.1:2003" |} in
  Graphite.submit example_config refused canonical_orders example_backend 0 10 s
  = Ok (Some "dialing 127.0.0.1:2003 failed - connection refused", s,
        [Graphite.Dial "127.0.0.1:2003"])
  ∧ Graphite.submit dbg refused canonical_orders example_backend 0 10 s
    = Ok (Some "dialing 127.0.0.1:2003 failed - connection refused",
          flushed dbg s, [Graphite.Dial "127.0.0.1:2003"]).
Proof.
  intros s dbg. split.
  - exact (proj1 (C6_dial_failure example_config canonical_orders example_backend
                    0 10 s "connection refused" None None)).
  - exact (proj1 (C6_dial_failure dbg canonical_orders example_backend
                    0 10 s "connection refused" None None)).
Defined.

(** ** C7: flushing a gauge *)

(** C7.  Let the gauge [k] hold [v] and let no write occur.  Flush 0 emits
    exactly one record for [k], carrying [v], in both backends.  With the
    delete-gauges option the gauges map is empty after that flush and no
    later flush emits a record for [k]; without it every flush leaves the
    whole store unchanged and emits the same record for [k] again. *)
Theorem C7_gauge_flush (cfg : config) (os : nat → orders) (now : nat → Z)
    (s : store) (k : string) (v : float) :
  gauges s !! k = Some v →
  ∀ n : nat,
    let sn := graphite_gauge_run cfg os now n s in
    falcon_gauge_run cfg os now n s = sn
    ∧ sn = (if deleteGauges cfg
            then match n with O => s | S _ => set_gauges (λ _, ∅) s end
            else s)
    ∧ ∃ rs : list record,
        (∀ buffer, Graphite.processGauges cfg (ord_gauges (os n)) buffer (now n) sn
                   = (buffer ++ (to_line (now n) <$> rs), Z.of_nat (length rs),
                      graphite_gauge_run cfg os now (S n) s))
        ∧ (∀ bd, OpenFalcon.processGauges cfg (ord_gauges (os n)) bd (now n) sn
                 = (push cfg (now n) bd rs, falcon_gauge_run cfg os now (S n) s))
        ∧ named k rs
          = (if deleteGauges cfg
             then match n with O => [(k, VFloat v)] | S _ => [] end
             else [(k, VFloat v)]).
Proof.
  intros Hk n. cbn zeta.
  rewrite !graphite_gauge_run_spec, !falcon_gauge_run_spec.
  split; [done|]. split.
  { unfold gauges_flushed. destruct n; by destruct (deleteGauges cfg). }
  eexists. split; [intros; rewrite graphite_processGauges_spec|split].
  - f_equal. destruct n; [done | by rewrite gauges_flushed_twice].
  - intros. rewrite falcon_processGauges_spec. f_equal.
    destruct n; [done | by rewrite gauges_flushed_twice].
  - rewrite gauges_records_named. destruct n; [by rewrite Hk; destruct (deleteGauges cfg)|].
    unfold gauges_flushed. destruct (deleteGauges cfg); cbn [gauges set_gauges].
    + by rewrite lookup_empty.
    + by rewrite Hk.
Qed.

(** C7, witness: the gauge "load" = 3 under the default flags (deletion
    enabled), at the second flush. *)
Lemma C7_gauge_flush_witness :
  let s := set_gauges (λ _, {[ "load" := 3%float ]}) empty_store in
  let os := λ _ : nat, canonical_orders in
  let now := λ j : nat, Z.of_nat j in
  let sn := graphite_gauge_run example_config os now 1 s in
  falcon_gauge_run example_config os now 1 s = sn
  ∧ sn = (if deleteGauges example_config then set_gauges (λ _, ∅) s else s)
  ∧ ∃ rs : list record,
      (∀ buffer, Graphite.processGauges example_config (ord_gauges (os 1%nat))
                   buffer (now 1%nat) sn
                 = (buffer ++ (to_line (now 1%nat) <$> rs), Z.of_nat (length rs),
                    graphite_gauge_run example_config os now 2 s))
      ∧ (∀ bd, OpenFalcon.processGauges example_config (ord_gauges (os 1%nat))
                 bd (now 1%nat) sn
               = (push example_config (now 1%nat) bd rs,
                  falcon_gauge_run example_config os now 2 s))
      ∧ named "load" rs
        = (if deleteGauges example_config then [] else [("load", VFloat 3)]).
Proof.
  intros s os now.
  apply (C7_gauge_flush example_config os now s "load" 3%float).
  vm_compute. reflexivity.
Defined.

(** ** C8: flushing a set *)

(** C8.  For a set bucket [k] holding the member sequence [set], both
    backends emit exactly one record for [k], whose value is the number of
    distinct members of [set]; after the flush the sets map is empty,
    whatever the configuration.  The members "a", "a", "b" count 2. *)
Theorem C8_set_flush (cfg : config) (o : range_order) (now : Z)
    (s : store) (k : string) (set : list string) :
  sets s !! k = Some set →
  ∃ (rs : list record) (s' : store),
    (∀ buffer, Graphite.processSets o buffer now s
               = (buffer ++ (to_line now <$> rs), Z.of_nat (length rs), s'))
    ∧ (∀ bd, OpenFalcon.processSets cfg o bd now s = (push cfg now bd rs, s'))
    ∧ named k rs = [(k, VInt (Z.of_nat (size (list_to_set set : gset string))))]
    ∧ sets s' = ∅
    ∧ uniqueCount ["a"; "a"; "b"] = 2.
Proof.
  intros Hk. exists (sets_records o s), (set_sets (λ _, ∅) s).
  split; [intros; apply graphite_processSets_spec|].
  split; [intros; apply falcon_processSets_spec|].
  split; [by rewrite sets_records_named, Hk, uniqueCount_distinct|].
  split; [done|]. vm_compute. reflexivity.
Qed.

(** C8, witness: the bucket "users" with the members "a", "a", "b". *)
Lemma C8_set_flush_witness :
  let s := set_sets (λ _, {[ "users" := ["a"; "a"; "b"] ]}) empty_store in
  Graphite.processSets canonical_order [] 0 s
  = ([Graphite.Line "users" (VInt 2) 0], 1, empty_store)
  ∧ ∃ (rs : list record) (s' : store),
      (∀ buffer, Graphite.processSets canonical_order buffer 0 s
                 = (buffer ++ (to_line 0 <$> rs), Z.of_nat (length rs), s'))
      ∧ (∀ bd, OpenFalcon.processSets example_config canonical_order bd 0 s
               = (push example_config 0 bd rs, s'))
      ∧ named "users" rs
        = [("users", VInt (Z.of_nat (size (list_to_set ["a"; "a"; "b"] : gset string))))]
      ∧ sets s' = ∅
      ∧ uniqueCount ["a"; "a"; "b"] = 2.
Proof.
  intros s. split; [vm_compute; reflexivity|].
  apply (C8_set_flush example_config canonical_order 0 s "users" ["a"; "a"; "b"]).
  vm_compute. reflexivity.
Defined.

(** ** C9: name and tags of a packet *)

(** C9.  Every metric name either contains no '/', and then the packet's
    name is the whole metric name and its tags are empty, or it splits as
    [name ++ "/" ++ tags] with no '/' in [tags], and then the packet's name
    is [name] and its tags are [tags]. *)
Theorem C9_parseMetric (metric : string) :
  (∀ cfg bd value now,
     OpenFalcon.packets (OpenFalcon.appendPacket cfg bd metric value now)
     = OpenFalcon.packets bd
       ++ [ {| OpenFalcon.Metric := (OpenFalcon.parseMetric metric).1;
               OpenFalcon.Endpoint := "statsd";
               OpenFalcon.Tags := (OpenFalcon.parseMetric metric).2;
               OpenFalcon.Value := value;
               OpenFalcon.Timestamp := now;
               OpenFalcon.CounterType := "GAUGE";
               OpenFalcon.Step := flushInterval cfg |} ])
  ∧ (∀ name tags,
       metric = name +:+ "/" +:+ tags → contains_byte slash tags = false →
       OpenFalcon.parseMetric metric = (name, tags))
  ∧ (if contains_byte slash metric
     then ∃ name tags,
            metric = name +:+ "/" +:+ tags ∧ contains_byte slash tags = false
            ∧ OpenFalcon.parseMetric metric = (name, tags)
     else OpenFalcon.parseMetric metric = (metric, "")).
Proof.
  split; [|split].
  - intros. unfold OpenFalcon.appendPacket.
    by destruct (OpenFalcon.parseMetric metric).
  - intros name tags -> Ht. by apply parseMetric_slash.
  - destruct (contains_byte slash metric) eqn:Hm.
    + destruct (split_last_slash _ Hm) as (name & tags & -> & Ht).
      exists name, tags. repeat split; [done|]. by apply parseMetric_slash.
    + by apply parseMetric_no_slash.
Qed.

(** C9, witness: a metric with two slashes is split at the last one. *)
Lemma C9_parseMetric_witness :
  OpenFalcon.parseMetric "web/api/host=a,env=b" = ("web/api", "host=a,env=b")
  ∧ OpenFalcon.parseMetric "hits" = ("hits", "").
Proof.
  split.
  - apply (proj1 (proj2 (C9_parseMetric "web/api/host=a,env=b")) "web/api"
             "host=a,env=b"); reflexivity.
  - exact (proj2 (proj2 (C9_parseMetric "hits"))).
Defined.

(** ** C10: the name stem of a timer bucket *)




(** * Further properties of the code *)

(** ** Independence of the visiting order *)

Lemma visit_any_order {V : Type} (o o' : range_order) (m : gmap string V) :
  visit o m ≡ₚ visit o' m.
Proof. by rewrite (visit_perm o V m), (visit_perm o' V m). Qed.

Lemma counters_records_order (oc oi oc' oi' : range_order) (s : store) :
  counters_records oc oi s ≡ₚ counters_records oc' oi' s.
Proof.
  unfold counters_records.
  by rewrite (visit_any_order oc oc'), (visit_any_order oi oi').
Qed.

Lemma mapM_order {A B : Type} (f : A → outcome B) (l l' : list A) :
  l ≡ₚ l' →
  match mapM f l, mapM f l' with
  | Ok k, Ok k' => k ≡ₚ k'
  | Panic _, Panic _ => True
  | _, _ => False
  end.
Proof.
  induction 1 as [|a l l' _ IH|a b l|l l' l'' _ IH1 _ IH2]; cbn [mapM].
  - simpl. reflexivity.
  - destruct (f a); cbn [mbind outcome_bind]; [|done].
    destruct (mapM f l), (mapM f l'); cbn [mbind outcome_bind mret outcome_ret];
      try done. by constructor.
  - destruct (f a), (f b); cbn [mbind outcome_bind]; try done;
      destruct (mapM f l); cbn [mbind outcome_bind mret outcome_ret]; try done.
    apply perm_swap.
  - destruct (mapM f l), (mapM f l'), (mapM f l''); try done. by etrans.
Qed.

Lemma concat_order {A : Type} (k k' : list (list A)) :
  k ≡ₚ k' → concat k ≡ₚ concat k'.
Proof.
  induction 1 as [|a l l' _ IH|a b l|l l' l'' _ IH1 _ IH2]; cbn [concat].
  - done.
  - by rewrite IH.
  - by rewrite !app_assoc, (comm (++) b a).
  - by etrans.
Qed.

Lemma timers_records_order (cfg : config) (o o' : range_order)
    (pctls : list Percentile) (s : store) :
  match timers_records cfg o pctls s, timers_records cfg o' pctls s with
  | Ok rs, Ok rs' => rs ≡ₚ rs'
  | Panic _, Panic _ => True
  | _, _ => False
  end.
Proof.
  unfold timers_records.
  pose proof (mapM_order (timer_records cfg pctls) _ _
                (visit_any_order o o' (timers s))) as H.
  destruct (mapM _ (visit o (timers s))), (mapM _ (visit o' (timers s)));
    cbn [mbind outcome_bind]; try done.
  by apply concat_order.
Qed.

(** X1.  The order in which the runtime visits the maps changes nothing
    but the order of the emitted records: under any two choices of orders,
    each procedure of each backend leaves the same store (and the same
    [num]) and emits the same lines or packets up to a permutation; the
    timer procedure moreover panics under one choice exactly when it panics
    under the other. *)
Theorem X1_order_independent (cfg : config) (os os' : orders) (now : Z)
    (pctls : list Percentile) (s : store)
    (buffer : list Graphite.line) (bd : OpenFalcon.openFalconBackend) :
  graphite_same
    (Graphite.processCounters cfg (ord_counters os) (ord_inactive os) buffer now s)
    (Graphite.processCounters cfg (ord_counters os') (ord_inactive os') buffer now s)
  ∧ graphite_same
      (Graphite.processGauges cfg (ord_gauges os) buffer now s)
      (Graphite.processGauges cfg (ord_gauges os') buffer now s)
  ∧ graphite_same
      (Graphite.processSets (ord_sets os) buffer now s)
      (Graphite.processSets (ord_sets os') buffer now s)
  ∧ outcome_same graphite_same
      (Graphite.processTimers cfg (ord_timers os) buffer now pctls s)
      (Graphite.processTimers cfg (ord_timers os') buffer now pctls s)
  ∧ falcon_same
      (OpenFalcon.processCounters cfg (ord_counters os) (ord_inactive os) bd now s)
      (OpenFalcon.processCounters cfg (ord_counters os') (ord_inactive os') bd now s)
  ∧ falcon_same
      (OpenFalcon.processGauges cfg (ord_gauges os) bd now s)
      (OpenFalcon.processGauges cfg (ord_gauges os') bd now s)
  ∧ falcon_same
      (OpenFalcon.processSets cfg (ord_sets os) bd now s)
      (OpenFalcon.processSets cfg (ord_sets os') bd now s)
  ∧ outcome_same falcon_same
      (OpenFalcon.processTimers cfg (ord_timers os) bd now pctls s)
      (OpenFalcon.processTimers cfg (ord_timers os') bd now pctls s).
Proof.
  pose proof (counters_records_order (ord_counters os) (ord_inactive os)
                (ord_counters os') (ord_inactive os') s) as Hc.
  assert (gauges_records (ord_gauges os) s ≡ₚ gauges_records (ord_gauges os') s) as Hg
    by (unfold gauges_records; by rewrite (visit_any_order (ord_gauges os) (ord_gauges os'))).
  assert (sets_records (ord_sets os) s ≡ₚ sets_records (ord_sets os') s) as Hs
    by (unfold sets_records; by rewrite (visit_any_order (ord_sets os) (ord_sets os'))).
  pose proof (timers_records_order cfg (ord_timers os) (ord_timers os') pctls s) as Ht.
  rewrite !graphite_processCounters_spec, !graphite_processGauges_spec,
    !graphite_processSets_spec, !graphite_processTimers_spec,
    !falcon_processCounters_spec, !falcon_processGauges_spec,
    !falcon_processSets_spec, !falcon_processTimers_spec.
  unfold graphite_same, falcon_same. cbn [fst snd].
  repeat split; try done;
    try (by rewrite ?Hc, ?Hg, ?Hs);
    try (apply Permutation_length in Hc, Hg, Hs; congruence).
  - destruct (timers_records cfg (ord_timers os) pctls s),
      (timers_records cfg (ord_timers os') pctls s); try done.
    cbn. repeat split; try done. by rewrite Ht.
  - cbn. by rewrite Hc.
  - cbn. by rewrite Hg.
  - cbn. by rewrite Hs.
  - destruct (timers_records cfg (ord_timers os) pctls s),
      (timers_records cfg (ord_timers os') pctls s); try done.
    cbn. repeat split; try done. by rewrite Ht.
Qed.

(** ** What each procedure touches *)

(** X2.  Each procedure changes only the maps it is about.
    [processCounters] empties [counters] and rewrites [countInactivity];
    [processGauges] changes [gauges] alone (emptied under the delete-gauges
    option, else kept); [processSets] empties [sets]; [processTimers], when
    it returns, empties [timers].  All other maps are left as they were, in
    both backends and under any visiting order. *)
Theorem X2_frame (cfg : config) (os : orders) (now : Z) (pctls : list Percentile)
    (s : store) (buffer : list Graphite.line) (bd : OpenFalcon.openFalconBackend) :
  let counters_only (s' : store) :=
    counters s' = ∅ ∧ gauges s' = gauges s ∧ timers s' = timers s ∧ sets s' = sets s in
  let gauges_only (s' : store) :=
    gauges s' = (if deleteGauges cfg then ∅ else gauges s)
    ∧ counters s' = counters s ∧ timers s' = timers s ∧ sets s' = sets s
    ∧ countInactivity s' = countInactivity s in
  let sets_only (s' : store) :=
    sets s' = ∅ ∧ counters s' = counters s ∧ gauges s' = gauges s
    ∧ timers s' = timers s ∧ countInactivity s' = countInactivity s in
  let timers_only (s' : store) :=
    timers s' = ∅ ∧ counters s' = counters s ∧ gauges s' = gauges s
    ∧ sets s' = sets s ∧ countInactivity s' = countInactivity s in
  counters_only
    (Graphite.processCounters cfg (ord_counters os) (ord_inactive os) buffer now s).2
  ∧ counters_only
      (OpenFalcon.processCounters cfg (ord_counters os) (ord_inactive os) bd now s).2
  ∧ gauges_only (Graphite.processGauges cfg (ord_gauges os) buffer now s).2
  ∧ gauges_only (OpenFalcon.processGauges cfg (ord_gauges os) bd now s).2
  ∧ sets_only (Graphite.processSets (ord_sets os) buffer now s).2
  ∧ sets_only (OpenFalcon.processSets cfg (ord_sets os) bd now s).2
  ∧ (∀ a, Graphite.processTimers cfg (ord_timers os) buffer now pctls s = Ok a →
          timers_only a.2)
  ∧ (∀ a, OpenFalcon.processTimers cfg (ord_timers os) bd now pctls s = Ok a →
          timers_only a.2).
Proof.
  cbn zeta.
  rewrite graphite_processCounters_spec, falcon_processCounters_spec,
    graphite_processGauges_spec, falcon_processGauges_spec,
    graphite_processSets_spec, falcon_processSets_spec,
    graphite_processTimers_spec, falcon_processTimers_spec.
  cbn [snd]. unfold gauges_flushed.
  repeat split; try done; try (by destruct (deleteGauges cfg));
    destruct (timers_records _ _ _ _); cbn [mbind outcome_bind] in *;
    try done; by simplify_eq.
Qed.

(** ** The records of the counter procedure, key by key *)

(** X3.  In one flush, [processCounters] emits for every key at most one
    record: the value of the key when it is in [counters] (whatever its
    inactivity count), else a zero when its inactivity count is positive,
    else nothing.  The records of the two backends are the same, and [num]
    is their number. *)
Theorem X3_counters_per_key (cfg : config) (oc oi : range_order) (now : Z) (s : store) :
  ∃ rs : list record,
    (∀ buffer, Graphite.processCounters cfg oc oi buffer now s
               = (buffer ++ (to_line now <$> rs), Z.of_nat (length rs),
                  counters_flushed cfg s))
    ∧ (∀ bd, OpenFalcon.processCounters cfg oc oi bd now s
             = (push cfg now bd rs, counters_flushed cfg s))
    ∧ (∀ k, named k rs
            = match counters s !! k, countInactivity s !! k with
              | Some v, _ => [(k, VFloat v)]
              | None, Some c => if 0 <? c then [(k, VZero)] else []
              | None, None => []
              end)
    ∧ (∀ k, (length (named k rs) ≤ 1)%nat).
Proof.
  exists (counters_records oc oi s).
  split; [intros; apply graphite_processCounters_spec|].
  split; [intros; apply falcon_processCounters_spec|].
  split; intros k; rewrite counters_records_named.
  - destruct (counters s !! k); [done|]. by destruct (countInactivity s !! k).
  - destruct (counters s !! k); [done|].
    destruct (countInactivity s !! k) as [c|]; [|cbn; lia].
    destruct (0 <? c); cbn; lia.
Qed.

(** ** The inactivity counts *)

Lemma age_bounds (cfg : config) (c c' : Z) :
  age cfg c = Some c' → c' ≤ persistCountKeys cfg ∧ c' = wrap64 (c + 1).
Proof.
  unfold age. destruct (Z.ltb_spec (persistCountKeys cfg) (wrap64 (c + 1)));
    [done|]. intros [= <-]. by split.
Qed.

(** X4.  If, before the flush, every inactivity count was non-negative
    and below the maximal int64, then after [processCounters] every count
    lies between 1 and the persistence threshold, in both backends alike:
    with a threshold below 1 the inactivity map is empty after the flush,
    so that the next flush has no zero to emit. *)
Theorem X4_inactivity_bounds (cfg : config) (oc oi : range_order) (now : Z) (s : store) :
  (∀ k c, countInactivity s !! k = Some c → 0 ≤ c < 2 ^ 63 - 1) →
  let s' := (Graphite.processCounters cfg oc oi [] now s).2 in
  (OpenFalcon.processCounters cfg oc oi (OpenFalcon.NewOpenFalconBackend "") now s).2 = s'
  ∧ (∀ k c, countInactivity s' !! k = Some c → 1 ≤ c ≤ persistCountKeys cfg)
  ∧ (persistCountKeys cfg < 1 → countInactivity s' = ∅).
Proof.
  intros Hs. cbn zeta.
  rewrite graphite_processCounters_spec, falcon_processCounters_spec. cbn [snd].
  assert (∀ k c, countInactivity (counters_flushed cfg s) !! k = Some c →
                 1 ≤ c ≤ persistCountKeys cfg) as Hb.
  { intros k c. rewrite counters_flushed_inactivity, reset_inactivity_lookup.
    destruct (counters s !! k) as [v|].
    - cbn [mbind option_bind]. intros [Hle ->]%age_bounds.
      change (wrap64 (0 + 1)) with 1 in *. lia.
    - destruct (countInactivity s !! k) as [c0|] eqn:Hc0; [|done].
      cbn [mbind option_bind]. intros [Hle ->]%age_bounds.
      specialize (Hs k c0 Hc0). rewrite wrap64_small in *; lia. }
  split; [done|]. split; [exact Hb|].
  intros HN. apply map_eq. intros k. rewrite lookup_empty.
  destruct (countInactivity (counters_flushed cfg s) !! k) as [c|] eqn:Hc; [|done].
  apply Hb in Hc. lia.
Qed.

(** X4, witness: the counter "hits" = 5 beside the key "old", inactive
    for 2 cycles, under the default flags. *)
Lemma X4_inactivity_bounds_witness :
  let s' := (Graphite.processCounters example_config canonical_order canonical_order
               [] 0 aging_store).2 in
  (OpenFalcon.processCounters example_config canonical_order canonical_order
     (OpenFalcon.NewOpenFalconBackend "") 0 aging_store).2 = s'
  ∧ (∀ k c, countInactivity s' !! k = Some c → 1 ≤ c ≤ persistCountKeys example_config)
  ∧ (persistCountKeys example_config < 1 → countInactivity s' = ∅).
Proof.
  apply (X4_inactivity_bounds example_config canonical_order canonical_order 0 aging_store).
  intros k c H.
  change (countInactivity aging_store) with ({[ "old" := 2 ]} : gmap string Z) in H.
  apply lookup_singleton_Some in H as [_ <-]. lia.
Defined.

(** ** Going silent *)

Lemma idle_bounds (cfg : config) (s : store) (j : nat) :
  (∀ k c, countInactivity s !! k = Some c → 0 ≤ c < 2 ^ 63 - 1) →
  persistCountKeys cfg < 2 ^ 63 - 1 →
  let sj := Nat.iter (S j) (counters_flushed cfg) s in
  counters sj = ∅
  ∧ ∀ k c, countInactivity sj !! k = Some c →
           Z.of_nat j + 1 ≤ c ≤ persistCountKeys cfg.
Proof.
  intros Hs HN. induction j as [|j [IHc IHi]].
  - cbn [Nat.iter nat_rect]. split; [done|]. intros k c.
    rewrite counters_flushed_inactivity, reset_inactivity_lookup.
    destruct (counters s !! k) as [v|].
    + cbn [mbind option_bind]. intros [Hle ->]%age_bounds.
      change (wrap64 (0 + 1)) with 1 in *. lia.
    + destruct (countInactivity s !! k) as [c0|] eqn:Hc0; [|done].
      cbn [mbind option_bind]. intros [Hle ->]%age_bounds.
      specialize (Hs k c0 Hc0). rewrite wrap64_small in *; lia.
  - cbn zeta in *. set (sj := Nat.iter (S j) (counters_flushed cfg) s) in *.
    change (Nat.iter (S (S j)) (counters_flushed cfg) s)
      with (counters_flushed cfg sj).
    split; [done|]. intros k c.
    rewrite counters_flushed_inactivity, reset_inactivity_lookup, IHc, lookup_empty.
    destruct (countInactivity sj !! k) as [c0|] eqn:Hc0; [|done].
    cbn [mbind option_bind]. intros [Hle ->]%age_bounds.
    specialize (IHi k c0 Hc0). rewrite wrap64_small in *; lia.
Qed.

(** X5.  Without new data the counter procedure goes silent: starting from
    any store whose inactivity counts are non-negative (and below the
    maximal int64, as the threshold), after the flush cycles 0..j with
    [j >= persistCountKeys] both backends have an empty [counters] and an
    empty [countInactivity], and cycle [j + 1] emits no record at all. *)
Theorem X5_silent_after_threshold (cfg : config) (os : nat → orders) (now : nat → Z)
    (s : store) (j : nat) :
  (∀ k c, countInactivity s !! k = Some c → 0 ≤ c < 2 ^ 63 - 1) →
  persistCountKeys cfg < 2 ^ 63 - 1 →
  persistCountKeys cfg ≤ Z.of_nat j →
  let sG := graphite_run cfg os now (S j) s in
  let sF := falcon_run cfg os now (S j) s in
  sF = sG ∧ counters sG = ∅ ∧ countInactivity sG = ∅
  ∧ (graphite_cycle cfg (os (S j)) (now (S j)) sG).1 = []
  ∧ (falcon_cycle cfg (os (S j)) (now (S j)) sF).1 = [].
Proof.
  intros Hs HN Hj. cbn zeta.
  rewrite graphite_run_spec, falcon_run_spec, graphite_cycle_spec, falcon_cycle_spec.
  destruct (idle_bounds cfg s j Hs HN) as [Hc Hi]. cbn zeta in Hc, Hi.
  set (sj := Nat.iter (S j) (counters_flushed cfg) s) in *.
  assert (countInactivity sj = ∅) as He.
  { apply map_eq. intros k. rewrite lookup_empty.
    destruct (countInactivity sj !! k) as [c|] eqn:Hk; [|done].
    apply Hi in Hk. lia. }
  assert (counters_records (ord_counters (os (S j))) (ord_inactive (os (S j))) sj = [])
    as Hr.
  { unfold counters_records, reset_inactivity. rewrite Hc, He, fmap_empty.
    rewrite (left_id_L ∅ (∪)), !visit_empty. done. }
  cbn [fst]. rewrite Hr. done.
Qed.

(** X5, witness: the counter "hits" = 5 beside the key "old", inactive
    for 2 cycles, with the threshold 2, after the cycles 0, 1 and 2. *)
Lemma X5_silent_after_threshold_witness :
  let cfg := {| debug := false; deleteGauges := true; persistCountKeys := 2;
                postfix := ""; percentThreshold := []; flushInterval := 10;
                graphiteAddress := "" |} in
  let os := λ _ : nat, canonical_orders in
  let now := λ j : nat, Z.of_nat j in
  let sG := graphite_run cfg os now 3 aging_store in
  let sF := falcon_run cfg os now 3 aging_store in
  sF = sG ∧ counters sG = ∅ ∧ countInactivity sG = ∅
  ∧ (graphite_cycle cfg (os 3%nat) (now 3%nat) sG).1 = []
  ∧ (falcon_cycle cfg (os 3%nat) (now 3%nat) sF).1 = [].
Proof.
  intros cfg os now.
  apply (X5_silent_after_threshold cfg os now aging_store 2).
  - intros k c H.
    change (countInactivity aging_store) with ({[ "old" := 2 ]} : gmap string Z) in H.
    apply lookup_singleton_Some in H as [_ <-]. lia.
  - simpl. lia.
  - simpl. lia.
Defined.

(** ** [submit] once the flush has run *)

(** X6.  In the streaming backend, once the dial and [SetDeadline] have
    succeeded, a flush with at least one record is sent in a single [Write]
    that carries every line, followed by [Close]; the store is drained
    whether or not the write fails, so a failed write loses the cycle's
    data.  If [SetDeadline] fails, nothing is drained, in debug mode too. *)
Theorem X6_graphite_connected (cfg : config) (os : orders)
    (bd : Graphite.graphiteBackend) (now deadline : Z) (s : store)
    (rs : list record) (write_err : option string) :
  flush_records cfg os s = Ok rs →
  rs ≠ [] →
  Graphite.submit cfg
    {| Graphite.dial_err := None; Graphite.deadline_err := None;
       Graphite.write_err := write_err |} os bd now deadline s
  = Ok ((λ err, "failed to write stats - " +:+ err) <$> write_err,
        flushed cfg s,
        [Graphite.Dial (Graphite.addr bd); Graphite.SetDeadline deadline;
         Graphite.Write (to_line now <$> rs); Graphite.Close])
  ∧ ∀ err,
      Graphite.submit cfg
        {| Graphite.dial_err := None; Graphite.deadline_err := Some err;
           Graphite.write_err := write_err |} os bd now deadline s
      = Ok (Some err, s,
            [Graphite.Dial (Graphite.addr bd); Graphite.SetDeadline deadline;
             Graphite.Close]).
Proof.
  intros Hrs Hne. split.
  - rewrite graphite_submit_spec, Hrs. cbn [Graphite.dial_err Graphite.deadline_err
      Graphite.write_err mbind outcome_bind].
    destruct rs as [|r rs]; [done|]. by destruct write_err.
  - intros err. by rewrite graphite_submit_spec.
Qed.

(** X6, witness: the counter "hits" = 5 and a write that fails. *)
Lemma X6_graphite_connected_witness :
  Graphite.submit example_config
    {| Graphite.dial_err := None; Graphite.deadline_err := None;
       Graphite.write_err := Some "broken pipe" |}
    canonical_orders example_backend 7 10 hits_store
  = Ok (Some "failed to write stats - broken pipe",
        flushed example_config hits_store,
        [Graphite.Dial "127.0.0.1:2003"; Graphite.SetDeadline 10;
         Graphite.Write [Graphite.Line "hits" (VFloat 5) 7]; Graphite.Close]).
Proof.
  apply (proj1 (X6_graphite_connected example_config canonical_orders example_backend
                  7 10 hits_store [("hits", VFloat 5%float)] (Some "broken pipe")
                  ltac:(vm_compute; reflexivity) ltac:(discriminate))).
Defined.

(** X7.  Whenever the batched backend's [submit] returns, with or without
    an error, its [packets] are empty again (and its addresses unchanged),
    and the store is drained.  It issues at most one request, to [postUrl],
    whose body is the marshalled list of the packets it held followed by
    those of this flush; and it returns success without a request only
    when there was nothing to send. *)
Theorem X7_falcon_submit_returns (cfg : config) (net : OpenFalcon.network)
    (os : orders) (bd bd' : OpenFalcon.openFalconBackend) (now deadline : Z)
    (s s' : store) (e : option string) (tr : list OpenFalcon.event) :
  OpenFalcon.submit cfg net os bd now deadline s = Ok (e, bd', s', tr) →
  OpenFalcon.packets bd' = []
  ∧ OpenFalcon.addr bd' = OpenFalcon.addr bd
  ∧ OpenFalcon.postUrl bd' = OpenFalcon.postUrl bd
  ∧ s' = flushed cfg s
  ∧ ∃ rs, flush_records cfg os s = Ok rs
      ∧ (tr = []
         ∨ ∃ body, tr = [OpenFalcon.Post (OpenFalcon.postUrl bd) body]
             ∧ OpenFalcon.marshal net
                 (OpenFalcon.packets bd ++ (to_packet cfg now <$> rs)) = inl body)
      ∧ (tr = [] → e = None → OpenFalcon.packets bd = [] ∧ rs = []).
Proof.
  rewrite falcon_submit_spec.
  destruct (flush_records cfg os s) as [rs|w]; [|done]. cbn [mbind outcome_bind].
  cbn zeta.
  destruct (OpenFalcon.packets bd ++ (to_packet cfg now <$> rs)) as [|p ps] eqn:Hp.
  - intros [= <- <- <- <-]. apply app_eq_nil in Hp as [Hbd Hrs].
    apply fmap_nil_inv in Hrs. split_and!; try done.
    exists rs. split_and!; [done | by left | done].
  - destruct (OpenFalcon.marshal net (p :: ps)) as [body|err] eqn:Hm.
    + destruct (OpenFalcon.new_request_ok net); [|done].
      destruct (OpenFalcon.do_err net).
      * intros [= <- <- <- <-]. split_and!; try done.
        exists rs. split_and!; [done | right; exists body; by rewrite Hp | done].
      * intros [= <- <- <- <-]. split_and!; try done.
        exists rs. split_and!; [done | right; exists body; by rewrite Hp | done].
    + intros [= <- <- <- <-]. split_and!; try done.
      exists rs. split_and!; [done | by left | done].
Qed.

(** X7, witness: the counter "hits" = 5 accepted by the agent. *)
Lemma X7_falcon_submit_returns_witness :
  let bd := OpenFalcon.NewOpenFalconBackend "127.0.0.1:1988" in
  ∃ bd' s',
    OpenFalcon.submit example_config accepting canonical_orders bd 7 10 hits_store
    = Ok (None, bd', s', [OpenFalcon.Post "http://127.0.0.1:1988/v1/push" "[]"])
    ∧ OpenFalcon.packets bd' = []
    ∧ OpenFalcon.addr bd' = OpenFalcon.addr bd
    ∧ OpenFalcon.postUrl bd' = OpenFalcon.postUrl bd
    ∧ s' = flushed example_config hits_store.
Proof.
  intros bd. exists bd, (flushed example_config hits_store).
  assert (OpenFalcon.submit example_config accepting canonical_orders bd 7 10 hits_store
          = Ok (None, bd, flushed example_config hits_store,
                [OpenFalcon.Post "http://127.0.0.1:1988/v1/push" "[]"])) as H
    by (vm_compute; reflexivity).
  split; [exact H|].
  destruct (X7_falcon_submit_returns example_config accepting canonical_orders
              bd bd 7 10 hits_store _ None _ H) as (Hp & Ha & Hu & Hs & _).
  by split_and!.
Defined.

(** ** Timer buckets that make the flush panic *)

Lemma mapM_panics {A B : Type} (f : A → outcome B) (l : list A) (a : A) (w : abort) :
  a ∈ l → f a = Panic w → ∃ w', mapM f l = Panic w'.
Proof.
  intros Ha Hf. induction l as [|b l IH]; [by apply not_elem_of_nil in Ha|].
  cbn [mapM]. destruct (f b) as [y|w'] eqn:Hb; [|by exists w'].
  cbn [mbind outcome_bind].
  apply elem_of_cons in Ha as [->|Ha]; [congruence|].
  destruct (IH Ha) as [w' ->]. by exists w'.
Qed.

(** X8.  A timer bucket without samples, or with a key shorter than the
    postfix, makes the whole flush panic, whatever else the store holds and
    in whatever order the buckets are visited: both [processTimers] panic,
    the batched [submit] panics, and the streaming [submit] panics as soon
    as it drains (after a successful dial and [SetDeadline], or after a
    failed dial in debug mode). *)
Theorem X8_bad_bucket_panics (cfg : config) (os : orders) (now deadline : Z)
    (s : store) (k : string) (timer : list float) :
  timers s !! k = Some timer →
  timer = [] ∨ len k < len (postfix cfg) →
  (∀ buffer, ∃ w, Graphite.processTimers cfg (ord_timers os) buffer now
                    (percentThreshold cfg) s = Panic w)
  ∧ (∀ bd, ∃ w, OpenFalcon.processTimers cfg (ord_timers os) bd now
                  (percentThreshold cfg) s = Panic w)
  ∧ (∀ net bd, ∃ w, OpenFalcon.submit cfg net os bd now deadline s = Panic w)
  ∧ (∀ net bd,
       Graphite.dial_err net = None → Graphite.deadline_err net = None →
       ∃ w, Graphite.submit cfg net os bd now deadline s = Panic w)
  ∧ (∀ net bd,
       is_Some (Graphite.dial_err net) → debug cfg = true →
       ∃ w, Graphite.submit cfg net os bd now deadline s = Panic w).
Proof.
  intros Hk Hbad.
  assert (∃ w, timer_records cfg (percentThreshold cfg) (k, timer) = Panic w) as [w0 Hw0].
  { unfold timer_records. cbn [fst snd]. rewrite slice_to_spec.
    destruct (Z.leb_spec 0 (len k - len (postfix cfg))) as [Hle|Hlt]; cbn [andb].
    - destruct Hbad as [->|Hlt]; [|lia].
      destruct (len k - len (postfix cfg) <=? len k); cbn [mbind outcome_bind];
        by eexists.
    - by eexists. }
  assert (∃ w, timers_records cfg (ord_timers os) (percentThreshold cfg) s = Panic w)
    as [w Hw].
  { unfold timers_records.
    destruct (mapM_panics (timer_records cfg (percentThreshold cfg))
                (visit (ord_timers os) (timers s)) (k, timer) w0) as [w ->];
      [by apply elem_of_visit | done | by exists w]. }
  assert (flush_records cfg os s = Panic w) as Hf
    by (unfold flush_records; by rewrite Hw).
  split_and!.
  - intros buffer. exists w. by rewrite graphite_processTimers_spec, Hw.
  - intros bd. exists w. by rewrite falcon_processTimers_spec, Hw.
  - intros net bd. exists w. by rewrite falcon_submit_spec, Hf.
  - intros net bd Hd Hdl. exists w. by rewrite graphite_submit_spec, Hd, Hdl, Hf.
  - intros net bd [err Hd] Hdbg. exists w.
    by rewrite graphite_submit_spec, Hd, Hdbg, Hf.
Qed.

(** X8, witness: an empty bucket "t" beside the counter "hits". *)
Lemma X8_bad_bucket_panics_witness :
  let s := set_timers (λ _, {[ "t" := [] ]}) hits_store in
  Graphite.submit example_config connected canonical_orders example_backend 0 10 s
  = Panic IndexOutOfRange
  ∧ ∀ net bd, ∃ w, OpenFalcon.submit example_config net canonical_orders bd 0 10 s
                   = Panic w.
Proof.
  intros s. split; [vm_compute; reflexivity|].
  apply (X8_bad_bucket_panics example_config canonical_orders 0 10 s "t" []);
    [vm_compute; reflexivity | by left].
Defined.

(** ** The lines of the timer procedure *)

Lemma timer_records_length (cfg : config) (pctls : list Percentile)
    (e : string * list float) (rs : list record) :
  timer_records cfg pctls e = Ok rs → length rs = (length pctls + 4)%nat.
Proof.
  unfold timer_records.
  destruct (slice_to _ _) as [stem|w]; [|done]. cbn [mbind outcome_bind].
  destruct (index _ 0) as [min|w]; [|done]. cbn [mbind outcome_bind].
  destruct (index _ _) as [max|w]; [|done]. cbn [mbind outcome_bind].
  destruct (mapM _ pctls) as [ps|w] eqn:Hps; [|done]. cbn [mbind outcome_bind].
  intros [= <-]. rewrite length_app, (mapM_length _ _ _ Hps). done.
Qed.

Lemma timers_records_length (cfg : config) (o : range_order)
    (pctls : list Percentile) (s : store) (rs : list record) :
  timers_records cfg o pctls s = Ok rs →
  length rs = (size (timers s) * (length pctls + 4))%nat.
Proof.
  unfold timers_records. rewrite <- (visit_length o (timers s)).
  generalize (visit o (timers s)). intros l. revert rs.
  induction l as [|e l IH]; intros rs; cbn [mapM].
  - by intros [= <-].
  - destruct (timer_records cfg pctls e) as [r|w] eqn:He; [|done].
    cbn [mbind outcome_bind]. destruct (mapM _ l) as [rss|w]; [|done].
    cbn [mbind outcome_bind mret outcome_ret concat]. intros [= <-].
    rewrite length_app, (timer_records_length _ _ _ _ He), (IH _ eq_refl).
    cbn [length]. lia.
Qed.

(** X9.  When [processTimers] returns, it has emitted, for every bucket,
    one record per percentile spec and four more (mean, upper, lower,
    count), and [timers] is empty.  The streaming backend's [num] counts
    the buckets, not these lines. *)
Theorem X9_timer_lines (cfg : config) (o : range_order) (now : Z)
    (pctls : list Percentile) (s : store) :
  (∀ buffer buffer' num s',
     Graphite.processTimers cfg o buffer now pctls s = Ok (buffer', num, s') →
     length buffer' = (length buffer + size (timers s) * (length pctls + 4))%nat
     ∧ num = Z.of_nat (size (timers s))
     ∧ timers s' = ∅)
  ∧ (∀ bd bd' s',
       OpenFalcon.processTimers cfg o bd now pctls s = Ok (bd', s') →
       length (OpenFalcon.packets bd')
       = (length (OpenFalcon.packets bd) + size (timers s) * (length pctls + 4))%nat
       ∧ timers s' = ∅).
Proof.
  split.
  - intros buffer buffer' num s'. rewrite graphite_processTimers_spec.
    destruct (timers_records cfg o pctls s) as [rs|w] eqn:Hrs; [|done].
    cbn [mbind outcome_bind]. intros [= <- <- <-].
    by rewrite length_app, length_fmap, (timers_records_length _ _ _ _ _ Hrs).
  - intros bd bd' s'. rewrite falcon_processTimers_spec.
    destruct (timers_records cfg o pctls s) as [rs|w] eqn:Hrs; [|done].
    cbn [mbind outcome_bind]. intros [= <- <-].
    by rewrite packets_push, length_app, length_fmap,
      (timers_records_length _ _ _ _ _ Hrs).
Qed.

(** X9, witness: one bucket of five samples and two percentile specs give
    six lines while [num] is 1. *)
Lemma X9_timer_lines_witness :
  ∃ buffer' s',
    Graphite.processTimers example_config canonical_order [] 0 [upper_50; lower_50]
      timed_store = Ok (buffer', 1, s')
    ∧ length buffer' = (length (@nil Graphite.line)
                        + size (timers timed_store) * (length [upper_50; lower_50] + 4))%nat
    ∧ 1 = Z.of_nat (size (timers timed_store))
    ∧ timers s' = ∅.
Proof.
  eexists _, _.
  assert (∀ b n s', Graphite.processTimers example_config canonical_order [] 0
                      [upper_50; lower_50] timed_store = Ok (b, n, s') →
                    Graphite.processTimers example_config canonical_order [] 0
                      [upper_50; lower_50] timed_store = Ok (b, n, s')
                    ∧ length b = (length (@nil Graphite.line)
                                  + size (timers timed_store)
                                    * (length [upper_50; lower_50] + 4))%nat
                    ∧ n = Z.of_nat (size (timers timed_store))
                    ∧ timers s' = ∅) as H.
  { intros b n s' Hb. split; [exact Hb|].
    exact (proj1 (X9_timer_lines example_config canonical_order 0
                    [upper_50; lower_50] timed_store) [] b n s' Hb). }
  apply H. vm_compute. reflexivity.
Defined.

(** ** Metric names that share a packet name *)

Lemma append_empty_r (s : string) : s +:+ "" = s.
Proof.
  induction s as [|a s IH]; [done|].
  change (String a (s +:+ "") = String a s). by rewrite IH.
Qed.

Lemma append_assoc (s t u : string) : (s +:+ t) +:+ u = s +:+ t +:+ u.
Proof.
  induction s as [|a s IH]; [done|].
  change (String a ((s +:+ t) +:+ u) = String a (s +:+ t +:+ u)). by rewrite IH.
Qed.

Lemma contains_byte_app (c : Ascii.ascii) (s t : string) :
  contains_byte c (s +:+ t) = contains_byte c s || contains_byte c t.
Proof.
  induction s as [|a s IH]; [done|].
  change (contains_byte c (String a (s +:+ t))
          = contains_byte c (String a s) || contains_byte c t).
  cbn [contains_byte]. by destruct (Ascii.eqb a c).
Qed.

Lemma parseMetric_tags_no_slash (m : string) :
  contains_byte slash (OpenFalcon.parseMetric m).2 = false.
Proof.
  destruct (contains_byte slash m) eqn:Hm.
  - destruct (split_last_slash _ Hm) as (name & tags & -> & Ht).
    by rewrite parseMetric_slash.
  - by rewrite parseMetric_no_slash.
Qed.

Lemma parseMetric_join (m : string) :
  m = if contains_byte slash m
      then (OpenFalcon.parseMetric m).1 +:+ "/" +:+ (OpenFalcon.parseMetric m).2
      else (OpenFalcon.parseMetric m).1.
Proof.
  destruct (contains_byte slash m) eqn:Hm.
  - destruct (split_last_slash _ Hm) as (name & tags & -> & Ht).
    by rewrite parseMetric_slash.
  - by rewrite parseMetric_no_slash.
Qed.

(** X10.  [parseMetric] loses one distinction only: a name without '/'
    and the same name followed by a single '/' give the same name and (empty)
    tags; any two other metric names with the same result are equal.  The
    tags never contain a '/', and the metric name is recovered from the
    result by joining name and tags with '/'. *)
Theorem X10_parseMetric_collisions (m m' : string) :
  (OpenFalcon.parseMetric m = OpenFalcon.parseMetric m' →
   m = m' ∨ m = m' +:+ "/" ∨ m' = m +:+ "/")
  ∧ (contains_byte slash m = false →
     OpenFalcon.parseMetric (m +:+ "/") = OpenFalcon.parseMetric m)
  ∧ contains_byte slash (OpenFalcon.parseMetric m).2 = false
  ∧ m = (if contains_byte slash m
         then (OpenFalcon.parseMetric m).1 +:+ "/" +:+ (OpenFalcon.parseMetric m).2
         else (OpenFalcon.parseMetric m).1).
Proof.
  split_and!.
  - intros Heq. pose proof (parseMetric_join m) as Hm.
    pose proof (parseMetric_join m') as Hm'. rewrite Heq in Hm.
    destruct (contains_byte slash m) eqn:Cm, (contains_byte slash m') eqn:Cm'.
    + left. congruence.
    + right; left. rewrite (parseMetric_no_slash m' Cm') in Hm. exact Hm.
    + right; right. rewrite <- Heq, (parseMetric_no_slash m Cm) in Hm'. exact Hm'.
    + left. congruence.
  - intros Cm. change (m +:+ "/") with (m +:+ String slash "").
    rewrite (parseMetric_slash m "" eq_refl).
    by rewrite parseMetric_no_slash.
  - apply parseMetric_tags_no_slash.
  - apply parseMetric_join.
Qed.

(** ** Timer statistics of a tagged bucket *)

Lemma parseMetric_append (m x : string) :
  contains_byte slash m = true → contains_byte slash x = false →
  OpenFalcon.parseMetric (m +:+ x)
  = ((OpenFalcon.parseMetric m).1, (OpenFalcon.parseMetric m).2 +:+ x).
Proof.
  intros Hm Hx. destruct (split_last_slash _ Hm) as (name & tags & -> & Ht).
  rewrite (parseMetric_slash name tags Ht), append_assoc. cbn [fst snd].
  change (String slash tags +:+ x) with (String slash (tags +:+ x)).
  apply parseMetric_slash. by rewrite contains_byte_app, Ht, Hx.
Qed.

(** X11.  For a timer bucket whose stem carries tags ([name/tags]), the
    batched backend puts the statistic into the tags: the packets for
    mean, upper, lower and count all have the metric name [name], and
    their tags are [tags] followed by ".mean", ".upper", ".lower" or
    ".count" and the postfix. *)
Theorem X11_timer_stat_in_tags (cfg : config) (now : Z) (pctls : list Percentile)
    (bucket : string) (timer : list float) (rs : list record) (stem : string) :
  bucket_emits cfg now pctls (bucket, timer) rs →
  slice_to bucket (len bucket - len (postfix cfg)) = Ok stem →
  contains_byte slash stem = true →
  contains_byte slash (postfix cfg) = false →
  Forall
    (λ stat,
       ∃ v, (stem +:+ stat +:+ postfix cfg, v) ∈ rs
            ∧ OpenFalcon.Metric (to_packet cfg now (stem +:+ stat +:+ postfix cfg, v))
              = (OpenFalcon.parseMetric stem).1
            ∧ OpenFalcon.Tags (to_packet cfg now (stem +:+ stat +:+ postfix cfg, v))
              = (OpenFalcon.parseMetric stem).2 +:+ stat +:+ postfix cfg)
    [".mean"; ".upper"; ".lower"; ".count"].
Proof.
  intros Hrs Hstem Hs Hp. apply bucket_emits_iff in Hrs.
  unfold timer_records in Hrs. cbn [fst snd] in Hrs. rewrite Hstem in Hrs.
  cbn [mbind outcome_bind] in Hrs.
  destruct (index _ 0) as [min|w]; [|done]. cbn [mbind outcome_bind] in Hrs.
  destruct (index _ _) as [max|w]; [|done]. cbn [mbind outcome_bind] in Hrs.
  destruct (mapM _ pctls) as [ps|w]; [|done].
  cbn [mbind outcome_bind] in Hrs. injection Hrs as <-.
  assert (∀ stat, contains_byte slash stat = false →
            OpenFalcon.parseMetric (stem +:+ stat +:+ postfix cfg)
            = ((OpenFalcon.parseMetric stem).1,
               (OpenFalcon.parseMetric stem).2 +:+ stat +:+ postfix cfg)) as Hparse.
  { intros stat Hstat. apply parseMetric_append; [done|].
    by rewrite contains_byte_app, Hstat, Hp. }
  rewrite !Forall_cons. split_and!; [..|done].
  - exists (VFloat (mean_of (sort_floats timer))).
    split; [|unfold to_packet; cbn [fst]; by rewrite Hparse].
    apply elem_of_app; right. apply list_elem_of_here.
  - exists (VFloat max).
    split; [|unfold to_packet; cbn [fst]; by rewrite Hparse].
    apply elem_of_app; right. do 1 apply list_elem_of_further. apply list_elem_of_here.
  - exists (VFloat min).
    split; [|unfold to_packet; cbn [fst]; by rewrite Hparse].
    apply elem_of_app; right. do 2 apply list_elem_of_further. apply list_elem_of_here.
  - exists (VInt (Z.of_nat (length (sort_floats timer)))).
    split; [|unfold to_packet; cbn [fst]; by rewrite Hparse].
    apply elem_of_app; right. do 3 apply list_elem_of_further. apply list_elem_of_here.
Qed.

(** X11, witness: the bucket "api/host=a" with one sample. *)
Lemma X11_timer_stat_in_tags_witness :
  let rs := [ ("api/host=a.mean", VFloat 7%float); ("api/host=a.upper", VFloat 7%float);
              ("api/host=a.lower", VFloat 7%float); ("api/host=a.count", VInt 1) ] in
  bucket_emits example_config 0 [] ("api/host=a", [7%float]) rs
  ∧ (to_packet example_config 0 <$> rs)
    = (λ '(tags, v),
         {| OpenFalcon.Metric := "api"; OpenFalcon.Endpoint := "statsd";
            OpenFalcon.Tags := tags; OpenFalcon.Value := v;
            OpenFalcon.Timestamp := 0; OpenFalcon.CounterType := "GAUGE";
            OpenFalcon.Step := 10 |})
      <$> [ ("host=a.mean", 7%float); ("host=a.upper", 7%float);
            ("host=a.lower", 7%float); ("host=a.count", 1%float) ]
  ∧ Forall
      (λ stat,
         ∃ v, ("api/host=a" +:+ stat +:+ "", v) ∈ rs
              ∧ OpenFalcon.Metric
                  (to_packet example_config 0 ("api/host=a" +:+ stat +:+ "", v))
                = "api"
              ∧ OpenFalcon.Tags
                  (to_packet example_config 0 ("api/host=a" +:+ stat +:+ "", v))
                = "host=a" +:+ stat +:+ "")
      [".mean"; ".upper"; ".lower"; ".count"].
Proof.
  intros rs.
  assert (bucket_emits example_config 0 [] ("api/host=a", [7%float]) rs) as Hrs
    by (apply bucket_emits_iff; vm_compute; reflexivity).
  split; [exact Hrs|]. split; [vm_compute; reflexivity|].
  apply (X11_timer_stat_in_tags example_config 0 [] "api/host=a" [7%float] rs
           "api/host=a" Hrs); reflexivity.
Defined.

(** ** What a procedure appends *)

Lemma stamped_packets (cfg : config) (now : Z) (rs : list record) :
  Forall (stamped cfg now) (to_packet cfg now <$> rs).
Proof.
  apply Forall_fmap, Forall_forall. intros r _. by unfold stamped, to_packet.
Qed.

Lemma stamped_lines (now : Z) (rs : list record) :
  Forall (λ l, Graphite.l_now l = now) (to_line now <$> rs).
Proof.
  apply Forall_fmap, Forall_forall. by intros r _.
Qed.

(** X12.  The four procedures only append to what the backend has
    collected: the lines or packets present before are kept, in place, as a
    prefix.  Every packet appended by the batched backend, counters and sets
    and timer statistics included, is typed "GAUGE", has the endpoint
    "statsd", the flush interval as its step and the time [now] of the
    flush; every line appended by the streaming backend carries [now]. *)
Theorem X12_appended_records (cfg : config) (os : orders) (now : Z)
    (pctls : list Percentile) (s : store)
    (buffer : list Graphite.line) (bd : OpenFalcon.openFalconBackend) :
  let lines_of (a : Graphite.acc) :=
    ∃ ls, a.1.1 = buffer ++ ls ∧ Forall (λ l, Graphite.l_now l = now) ls in
  let packets_of (a : OpenFalcon.acc) :=
    ∃ ps, OpenFalcon.packets a.1 = OpenFalcon.packets bd ++ ps
          ∧ Forall (stamped cfg now) ps in
  lines_of (Graphite.processCounters cfg (ord_counters os) (ord_inactive os) buffer now s)
  ∧ lines_of (Graphite.processGauges cfg (ord_gauges os) buffer now s)
  ∧ lines_of (Graphite.processSets (ord_sets os) buffer now s)
  ∧ (∀ a, Graphite.processTimers cfg (ord_timers os) buffer now pctls s = Ok a →
          lines_of a)
  ∧ packets_of (OpenFalcon.processCounters cfg (ord_counters os) (ord_inactive os) bd now s)
  ∧ packets_of (OpenFalcon.processGauges cfg (ord_gauges os) bd now s)
  ∧ packets_of (OpenFalcon.processSets cfg (ord_sets os) bd now s)
  ∧ (∀ a, OpenFalcon.processTimers cfg (ord_timers os) bd now pctls s = Ok a →
          packets_of a).
Proof.
  intros lines_of packets_of. unfold lines_of, packets_of.
  rewrite graphite_processCounters_spec, graphite_processGauges_spec,
    graphite_processSets_spec, graphite_processTimers_spec,
    falcon_processCounters_spec, falcon_processGauges_spec,
    falcon_processSets_spec, falcon_processTimers_spec.
  cbn [fst snd]. split_and!.
  - eexists. split; [done|]. apply stamped_lines.
  - eexists. split; [done|]. apply stamped_lines.
  - eexists. split; [done|]. apply stamped_lines.
  - intros a Ha. destruct (timers_records _ _ _ _) as [rs|w]; [|done].
    cbn [mbind outcome_bind] in Ha. injection Ha as <-.
    eexists. split; [done|]. apply stamped_lines.
  - eexists. split; [apply packets_push|]. apply stamped_packets.
  - eexists. split; [apply packets_push|]. apply stamped_packets.
  - eexists. split; [apply packets_push|]. apply stamped_packets.
  - intros a Ha. destruct (timers_records _ _ _ _) as [rs|w]; [|done].
    cbn [mbind outcome_bind] in Ha. injection Ha as <-.
    eexists. split; [apply packets_push|]. apply stamped_packets.
Qed.

(** ** The size of a set *)

Lemma size_list_to_set_le (l : list string) :
  (size (list_to_set l : gset string) ≤ length l)%nat
  ∧ (size (list_to_set l : gset string) = length l → NoDup l).
Proof.
  induction l as [|x l [IHle IHeq]]; [split; [done|constructor]|].
  cbn [list_to_set length].
  destruct (decide (x ∈ (list_to_set l : gset string))) as [Hin|Hin].
  - assert ({[x]} ∪ (list_to_set l : gset string) = list_to_set l) as ->
      by (apply subseteq_union_1_L, singleton_subseteq_l, Hin).
    split; [lia|]. intros Heq. lia.
  - rewrite size_union by (apply disjoint_singleton_l, Hin).
    rewrite size_singleton. split; [lia|]. intros Heq.
    constructor; [by rewrite elem_of_list_to_set in Hin|]. apply IHeq. lia.
Qed.

(** X13.  The value flushed for a set is the number of distinct members
    received: it does not depend on the order of the members or on how
    often each was received, it is at most the number of values received,
    with equality exactly when no value was received twice, and it is 0
    only for a set without values. *)
Theorem X13_uniqueCount (set set' : list string) :
  0 ≤ uniqueCount set ≤ Z.of_nat (length set)
  ∧ (uniqueCount set = Z.of_nat (length set) ↔ NoDup set)
  ∧ (uniqueCount set = 0 ↔ set = [])
  ∧ ((∀ x, x ∈ set ↔ x ∈ set') → uniqueCount set = uniqueCount set').
Proof.
  rewrite !uniqueCount_distinct.
  destruct (size_list_to_set_le set) as [Hle Heq]. split_and!.
  - lia.
  - lia.
  - split; [intros H; apply Heq; lia|].
    intros Hnd. by rewrite size_list_to_set.
  - split.
    + intros H. assert (size (list_to_set set : gset string) = 0%nat) as H0 by lia.
      apply size_empty_inv in H0. destruct set as [|x l]; [done|].
      exfalso. apply (not_elem_of_empty (C := gset string) x).
      apply H0. apply elem_of_list_to_set, list_elem_of_here.
    + by intros ->.
  - intros Hsame. do 2 f_equal. apply set_eq. intros x.
    by rewrite !elem_of_list_to_set.
Qed.

(** ** A flush that follows a flush *)

Lemma timers_records_empty (cfg : config) (o : range_order)
    (pctls : list Percentile) (s : store) :
  timers s = ∅ → timers_records cfg o pctls s = Ok [].
Proof.
  intros H. unfold timers_records. by rewrite H, visit_empty.
Qed.

Lemma flush_records_flushed (cfg : config) (os : orders) (s : store) :
  flush_records cfg os (flushed cfg s)
  = Ok (omap zero_record
          (visit (ord_inactive os) (countInactivity (flushed cfg s)))
        ++ (if deleteGauges cfg then []
            else gauges_records (ord_gauges os) s)).
Proof.
  unfold flush_records.
  rewrite (timers_records_empty cfg _ _ (flushed cfg s)) by done.
  cbn [mbind outcome_bind]. f_equal.
  unfold sets_records, counters_records, reset_inactivity, gauges_records.
  change (sets (flushed cfg s)) with (∅ : gmap string (list string)).
  assert (counters (flushed cfg s) = ∅) as ->.
  { unfold flushed, gauges_flushed. by destruct (deleteGauges cfg). }
  rewrite !visit_empty, fmap_empty, (left_id_L ∅ (∪)).
  cbn [fmap list_fmap app]. rewrite !app_nil_r. f_equal.
  unfold flushed, gauges_flushed. destruct (deleteGauges cfg); [|done].
  cbn [gauges set_sets set_timers set_gauges]. by rewrite visit_empty.
Qed.

(** X14.  When a flush of the batched backend has returned and nothing
    is received before the next flush, the next flush cannot panic in the
    streaming backend's [submit], whatever the network does, and its
    records are the zero-fills of the idle counters followed, unless gauges
    are deleted, by the gauges with the values they had: every record is a
    literal zero or an unchanged gauge. *)
Theorem X14_flush_after_flush (cfg : config) (net : OpenFalcon.network)
    (os os' : orders) (bd bd1 : OpenFalcon.openFalconBackend) (now deadline : Z)
    (s s1 : store) (e : option string) (tr : list OpenFalcon.event) :
  OpenFalcon.submit cfg net os bd now deadline s = Ok (e, bd1, s1, tr) →
  ∃ rs,
    flush_records cfg os' s1 = Ok rs
    ∧ rs = omap zero_record (visit (ord_inactive os') (countInactivity s1))
           ++ (if deleteGauges cfg then []
               else gauges_records (ord_gauges os') s)
    ∧ (∀ r, r ∈ rs →
         (r.2 = VZero ∧ is_Some (countInactivity s1 !! r.1))
         ∨ (deleteGauges cfg = false ∧ ∃ v, gauges s !! r.1 = Some v ∧ r.2 = VFloat v))
    ∧ (∀ gnet gbd now' deadline', ∃ e' s2 tr',
         Graphite.submit cfg gnet os' gbd now' deadline' s1 = Ok (e', s2, tr')).
Proof.
  intros Hsub. rewrite falcon_submit_spec in Hsub.
  destruct (flush_records cfg os s) as [rs0|w]; [|done].
  cbn [mbind outcome_bind] in Hsub. cbv zeta in Hsub.
  assert (s1 = flushed cfg s) as ->.
  { destruct (_ ++ _); [congruence|].
    destruct (OpenFalcon.marshal net _); [|congruence].
    destruct (OpenFalcon.new_request_ok net); [|done].
    destruct (OpenFalcon.do_err net); congruence. }
  clear Hsub. eexists. split; [apply flush_records_flushed|].
  split; [done|]. split.
  - intros [k v] Hr. apply elem_of_app in Hr as [Hr|Hr].
    + left. apply list_elem_of_omap in Hr as ([k' c] & Hin & Hz).
      unfold zero_record in Hz. cbn [fst snd] in Hz.
      destruct (0 <? c); [|done]. injection Hz as <- <-.
      split; [done|]. apply elem_of_visit in Hin. by exists c.
    + right. destruct (deleteGauges cfg); [by apply elem_of_nil in Hr|].
      split; [done|]. unfold gauges_records in Hr.
      apply list_elem_of_fmap in Hr as ([k' g] & [= -> ->] & Hin).
      apply elem_of_visit in Hin. by exists g.
  - intros gnet gbd now' deadline'. rewrite graphite_submit_spec.
    rewrite flush_records_flushed. cbn [mbind outcome_bind]. cbv zeta.
    destruct (Graphite.dial_err gnet).
    { destruct (debug cfg); eauto. }
    destruct (Graphite.deadline_err gnet); [eauto|].
    destruct (_ ++ _); [eauto|]. destruct (Graphite.write_err gnet); eauto.
Qed.

(** X14, witness: the store with one counter and one gauge, a collector
    that accepts the post, gauges deleted. *)
Lemma X14_flush_after_flush_witness :
  ∃ s1 rs,
    OpenFalcon.submit example_config accepting canonical_orders
      (OpenFalcon.NewOpenFalconBackend "falcon:1988") 0 5 gauged_store
    = Ok (None, OpenFalcon.NewOpenFalconBackend "falcon:1988", s1,
          [OpenFalcon.Post "http://falcon:1988/v1/push" "[]"])
    ∧ flush_records example_config canonical_orders s1 = Ok rs
    ∧ rs = [("hits", VZero)].
Proof.
  eexists. 
  destruct (X14_flush_after_flush example_config accepting canonical_orders
              canonical_orders (OpenFalcon.NewOpenFalconBackend "falcon:1988")
              (OpenFalcon.NewOpenFalconBackend "falcon:1988") 0 5 gauged_store
              (flushed example_config gauged_store) None
              [OpenFalcon.Post "http://falcon:1988/v1/push" "[]"])
    as (rs & Hrs & Heq & _).
  - vm_compute. reflexivity.
  - exists rs. split; [vm_compute; reflexivity|]. split; [exact Hrs|].
    rewrite Heq. vm_compute. reflexivity.
Defined.

(** ** Timer statistics are samples *)

Lemma sort_insert_perm (x : float) (l : list float) : sort_insert x l ≡ₚ x :: l.
Proof.
  induction l as [|y l IH]; [done|]. cbn [sort_insert].
  destruct (y <? x)%float; [|done]. rewrite IH. apply perm_swap.
Qed.

Lemma sort_floats_perm (l : list float) : sort_floats l ≡ₚ l.
Proof.
  induction l as [|x l IH]; [done|].
  change (sort_floats (x :: l)) with (sort_insert x (sort_floats l)).
  by rewrite sort_insert_perm, IH.
Qed.

Lemma index_elem_of {A : Type} (l : list A) (i : Z) (a : A) :
  index l i = Ok a → a ∈ l.
Proof.
  intros [_ H]%index_Ok. by apply list_elem_of_lookup_2 in H.
Qed.

(** X15.  The percentile thresholds and the upper and lower bound that
    a bucket emits are samples of the bucket, never interpolated values:
    the records of a bucket are one threshold per configured percentile,
    then the mean, the upper bound, the lower bound and the number of
    samples, and each threshold and both bounds occur among the samples
    received. *)
Theorem X15_statistics_are_samples (cfg : config) (now : Z) (pctls : list Percentile)
    (bucket : string) (timer : list float) (rs : list record) :
  bucket_emits cfg now pctls (bucket, timer) rs →
  ∃ stem pcts mean upper lower,
    rs = pcts ++ [ (stem +:+ ".mean" +:+ postfix cfg, VFloat mean);
                   (stem +:+ ".upper" +:+ postfix cfg, VFloat upper);
                   (stem +:+ ".lower" +:+ postfix cfg, VFloat lower);
                   (stem +:+ ".count" +:+ postfix cfg, VInt (Z.of_nat (length timer))) ]
    ∧ length pcts = length pctls
    ∧ upper ∈ timer ∧ lower ∈ timer
    ∧ Forall (λ r, ∃ t, r.2 = VFloat t ∧ t ∈ timer) pcts.
Proof.
  intros Hrs. apply bucket_emits_iff in Hrs.
  unfold timer_records in Hrs. cbn [fst snd] in Hrs.
  destruct (slice_to bucket _) as [stem|w] eqn:Hstem; [|done].
  cbn [mbind outcome_bind] in Hrs.
  destruct (index (sort_floats timer) 0) as [min|w] eqn:Hmin; [|done].
  cbn [mbind outcome_bind] in Hrs.
  destruct (index (sort_floats timer) (_ - 1)) as [max|w] eqn:Hmax; [|done].
  cbn [mbind outcome_bind] in Hrs.
  destruct (mapM _ pctls) as [ps|w] eqn:Hps; [|done].
  cbn [mbind outcome_bind] in Hrs. injection Hrs as <-.
  apply index_elem_of in Hmin, Hmax. rewrite sort_floats_perm in Hmin, Hmax.
  exists stem, ps, (mean_of (sort_floats timer)), max, min.
  rewrite sort_floats_length. split_and!; try done.
  - by apply mapM_length in Hps.
  - apply mapM_Forall2 in Hps. clear Hstem.
    induction Hps as [|pct r pctls ps Hr _ IH]; constructor; [|done].
    unfold pct_record in Hr.
    destruct (threshold _ max pct) as [t|w] eqn:Ht; [|done].
    cbn [mbind outcome_bind] in Hr.
    destruct (pct_name cfg stem pct) as [name|w]; [|done].
    cbn [mbind outcome_bind] in Hr. injection Hr as <-.
    exists t. split; [done|]. unfold threshold in Ht.
    destruct (1 <? _).
    + destruct (indexOfPerc _ _) as [i|w]; [|done].
      cbn [mbind outcome_bind] in Ht. apply index_elem_of in Ht.
      by rewrite sort_floats_perm in Ht.
    + by injection Ht as <-.
Qed.

(** X15, witness: the five samples 5, 3, 1, 2, 4 with the upper 50
    percentile. *)
Lemma X15_statistics_are_samples_witness :
  ∃ rs stem pcts mean upper lower,
    bucket_emits example_config 0 [upper_50] ("t", five_samples) rs
    ∧ rs = pcts ++ [ (stem +:+ ".mean" +:+ "", VFloat mean);
                     (stem +:+ ".upper" +:+ "", VFloat upper);
                     (stem +:+ ".lower" +:+ "", VFloat lower);
                     (stem +:+ ".count" +:+ "", VInt 5) ]
    ∧ upper ∈ five_samples ∧ lower ∈ five_samples
    ∧ Forall (λ r, ∃ t, r.2 = VFloat t ∧ t ∈ five_samples) pcts.
Proof.
  assert (bucket_emits example_config 0 [upper_50] ("t", five_samples)
            [ ("t.upper_50", VFloat 3%float); ("t.mean", VFloat 3%float);
              ("t.upper", VFloat 5%float); ("t.lower", VFloat 1%float);
              ("t.count", VInt 5) ]) as Hrs
    by (apply bucket_emits_iff; vm_compute; reflexivity).
  destruct (X15_statistics_are_samples _ _ _ _ _ _ Hrs)
    as (stem & pcts & mean & upper & lower & Heq & _ & Hu & Hl & Hp).
  eexists _, stem, pcts, mean, upper, lower. by split_and!.
Defined.
